(** * Dice expression parser and roll evaluator

    A shallow embedding of [DiceService] (parser, evaluator, common-roll
    catalogue) and of [CharacterService.calculateModifier], together with
    the properties the design document states about them.

    Conventions of the embedding.

    - A JavaScript [number] that holds an integer is a [Z].  [count],
      [sides] and every die result stay far below 2^53, where doubles
      are exact; a numeric modifier is exact as long as its literal has
      at most fifteen digits.  [parseInt] of a longer digit run rounds,
      to a double on the same side of 100 and of 1000 as the exact
      value, so the bounds check decides alike.  [NaN] is the [None] of
      an [option Z].
    - A JavaScript string is the [string] of its UTF-8 bytes.
    - [Math.random]-like values are rationals ([Q]); the random source is
      the sequence of values [secureRandom] returns, read through a
      cursor that every draw advances.
    - [throw] is the [Throw] outcome of a small state-and-error monad. *)

From Stdlib Require Import ZArith QArith Qround String Ascii List Bool Lia.
From Stdlib Require Import DecimalString DecimalPos.
Import ListNotations.

Local Open Scope string_scope.
Local Open Scope Z_scope.

(** ** JavaScript built-ins used by the services *)

Module JS.

(** *** Characters *)

Definition code (c : ascii) : N := N_of_ascii c.

Definition isDigit (c : ascii) : bool :=
  ((48 <=? code c) && (code c <=? 57))%N.

Definition isUpper (c : ascii) : bool :=
  ((65 <=? code c) && (code c <=? 90))%N.

Definition isLower (c : ascii) : bool :=
  ((97 <=? code c) && (code c <=? 122))%N.

Definition lowerChar (c : ascii) : ascii :=
  if isUpper c then ascii_of_N (code c + 32) else c.

Definition upperChar (c : ascii) : ascii :=
  if isLower c then ascii_of_N (code c - 32) else c.

(** [String.prototype.toLowerCase] / [toUpperCase].  Only ASCII letters
    are mapped: no character outside ASCII has a lower-case form that is
    a letter of the two grammars below (U+212A becomes [k], U+0130
    becomes [i] followed by U+0307), so leaving the other bytes as they
    are does not change which inputs match. *)
Fixpoint toLowerCase (s : string) : string :=
  match s with
  | EmptyString => EmptyString
  | String c r => String (lowerChar c) (toLowerCase r)
  end.

Fixpoint toUpperCase (s : string) : string :=
  match s with
  | EmptyString => EmptyString
  | String c r => String (upperChar c) (toUpperCase r)
  end.

(** *** White space, the class [\s] *)

Fixpoint bytes (l : list N) : string :=
  match l with
  | [] => EmptyString
  | b :: r => String (ascii_of_N b) (bytes r)
  end.

(** The code points of [\s] in UTF-8: TAB, LF, VT, FF, CR, SP, U+00A0,
    U+1680, U+2000 to U+200A, U+2028, U+2029, U+202F, U+205F, U+3000 and
    U+FEFF. *)
Definition whiteSpace : list string :=
  map bytes
    [ [9]; [10]; [11]; [12]; [13]; [32]; [194; 160]; [225; 154; 128];
      [226; 128; 128]; [226; 128; 129]; [226; 128; 130]; [226; 128; 131];
      [226; 128; 132]; [226; 128; 133]; [226; 128; 134]; [226; 128; 135];
      [226; 128; 136]; [226; 128; 137]; [226; 128; 138];
      [226; 128; 168]; [226; 128; 169]; [226; 128; 175];
      [226; 129; 159]; [227; 128; 128]; [239; 187; 191] ]%N.

(** Length in bytes of the white-space character [s] starts with, [0]
    when it starts with none. *)
Definition spaceAt (s : string) : nat :=
  match find (fun w => prefix w s) whiteSpace with
  | Some w => String.length w
  | None => O
  end.

(** [skip] bytes of a white-space character are still to be dropped. *)
Fixpoint dropSpace (skip : nat) (s : string) : string :=
  match s with
  | EmptyString => EmptyString
  | String c r =>
      match skip with
      | S k => dropSpace k r
      | O =>
          match spaceAt s with
          | O => String c (dropSpace O r)
          | S k => dropSpace k r
          end
      end
  end.

(** [s.replace(/\s+/g, '')] *)
Definition removeWhiteSpace (s : string) : string := dropSpace O s.

(** *** Numbers *)

Definition digitValue (c : ascii) : Z := Z.of_N (code c) - 48.

(** The longest prefix of decimal digits and what follows it: how the
    greedy digit runs of the patterns split their input. *)
Fixpoint spanDigits (s : string) : string * string :=
  match s with
  | EmptyString => (EmptyString, EmptyString)
  | String c r =>
      if isDigit c
      then let (d, rest) := spanDigits r in (String c d, rest)
      else (EmptyString, s)
  end.

Fixpoint digitsValue (acc : Z) (s : string) : Z :=
  match s with
  | EmptyString => acc
  | String c r => digitsValue (10 * acc + digitValue c) r
  end.

Definition isSign (c : ascii) : bool :=
  (code c =? 43)%N || (code c =? 45)%N.

(** [parseInt(s)] on the texts the parser hands to it (captured groups:
    an optional sign, then decimal digits): the value of the longest
    digit prefix after the sign, [NaN] when that prefix is empty. *)
Definition parseInt (s : string) : option Z :=
  let '(negative, body) :=
    match s with
    | String c r =>
        if (code c =? 45)%N then (true, r)
        else if (code c =? 43)%N then (false, r)
        else (false, s)
    | EmptyString => (false, s)
    end in
  match fst (spanDigits body) with
  | EmptyString => None
  | d => Some (if negative then - digitsValue 0 d else digitsValue 0 d)
  end.

(** [`${n}`] for an integer [n]. *)
Definition toString (n : Z) : string :=
  NilZero.string_of_int (Z.to_int n).

(** [Math.floor] *)
Definition Math_floor (x : Q) : Z := Qfloor x.

(** [parts.join(sep)] *)
Fixpoint join (sep : string) (parts : list string) : string :=
  match parts with
  | [] => EmptyString
  | [p] => p
  | p :: rest => p ++ sep ++ join sep rest
  end.

End JS.

(** ** Core data types *)

Inductive Attribute : Type := STR | DEX | CON | INT | WIS | CHA.

(** The key of [Character['basicAttributes']] as text. *)
Definition attributeName (a : Attribute) : string :=
  match a with
  | STR => "STR" | DEX => "DEX" | CON => "CON"
  | INT => "INT" | WIS => "WIS" | CHA => "CHA"
  end.

Definition allAttributes : list Attribute := [STR; DEX; CON; INT; WIS; CHA].

Record BasicAttributes : Type := mkBasicAttributes {
  attrSTR : Z; attrDEX : Z; attrCON : Z;
  attrINT : Z; attrWIS : Z; attrCHA : Z
}.

Record Resources : Type := mkResources {
  level : Z; HP : Z; maxHP : Z; AC : Z;
  meleeAtkBonus : Z;
  rangedAtkBonus : Z;
  spellcastingBonus : Z;
  luck : bool
}.

(** The fields of [Character] the dice service reads. *)
Record Character : Type := mkCharacter {
  basicAttributes : BasicAttributes;
  resources : Resources
}.

(** [character.basicAttributes[a]] *)
Definition attributeScore (b : BasicAttributes) (a : Attribute) : Z :=
  match a with
  | STR => attrSTR b | DEX => attrDEX b | CON => attrCON b
  | INT => attrINT b | WIS => attrWIS b | CHA => attrCHA b
  end.

(** ** CharacterService *)

Module CharacterService.

(** [Math.floor((attributeValue - 10) / 2)]: a real division, then the
    floor of the quotient. *)
Definition calculateModifier (attributeValue : Z) : Z :=
  JS.Math_floor ((inject_Z attributeValue - 10) / 2)%Q.

End CharacterService.

(** ** DiceService *)

Module DiceService.

Import JS.

(** [DiceExpression], with the fields [parseDiceExpression] fills in. *)
Record DiceExpression : Type := mkDiceExpression {
  count : Z;
  sides : Z;
  modifier : Z;
  attributeBonus : option Attribute
}.

Record RollEntry : Type := mkRollEntry {
  die : Z;
  result : Z;
  isMax : bool;
  isMin : bool
}.

Record ModifierEntry : Type := mkModifierEntry {
  name : string;
  value : Z
}.

(** [resultExpression] is the field [expression] of the source, which
    [RollRequest] has too. *)
Record DiceResult : Type := mkDiceResult {
  resultExpression : string;
  rolls : list RollEntry;
  modifiers : list ModifierEntry;
  total : Z;
  details : string;
  timestamp : Z
}.

(** An optional boolean is [None] when the property is absent. *)
Record RollRequest : Type := mkRollRequest {
  expression : string;
  character : option Character;
  advantage : option bool;
  disadvantage : option bool;
  description : option string
}.

Definition truthy (flag : option bool) : bool :=
  match flag with
  | Some b => b
  | None => false
  end.

(** *** The two regular expressions *)

(** The trailing [([+-]\d+)?$]: [Some None] when the input ends here,
    [Some (Some g)] when the rest is a signed number [g], [None] when
    the rest is anything else. *)
Definition signedNumberToEnd (s : string) : option (option string) :=
  match s with
  | EmptyString => Some None
  | String c r =>
      match spanDigits r with
      | (String _ _, EmptyString) => if isSign c then Some (Some s) else None
      | _ => None
      end
  end.

(** The first pattern, anchored at both ends: a possibly empty digit
    run, [d], a digit run, an optional sign with a digit run.  The
    result holds the three captured groups.  Each digit run is followed
    by something that is not a digit, so the greedy split is the only
    one that can match. *)
Definition basicMatch (cleaned : string) : option (string * string * option string) :=
  let (g1, r1) := spanDigits cleaned in
  match r1 with
  | String c r2 =>
      if (c =? "d")%char then
        match spanDigits r2 with
        | (EmptyString, _) => None
        | (g2, r3) =>
            match signedNumberToEnd r3 with
            | Some g3 => Some (g1, g2, g3)
            | None => None
            end
        end
      else None
  | EmptyString => None
  end.

Definition attributeTokens : list string :=
  ["str"; "dex"; "con"; "int"; "wis"; "cha"].

Definition isAttributeToken (t : string) : bool :=
  existsb (String.eqb t) attributeTokens.

(** The optional group [([+-](?:str|dex|con|int|wis|cha))?]: what it
    captures and the input left.  When it can match it must: skipping
    it leaves a sign followed by a letter, which nothing after it
    accepts. *)
Definition attributeGroup (s : string) : option string * string :=
  match s with
  | String c (String x (String y (String z rest))) =>
      if isSign c && isAttributeToken (String x (String y (String z EmptyString)))
      then (Some (String c (String x (String y (String z EmptyString)))), rest)
      else (None, s)
  | _ => (None, s)
  end.

(** The second pattern: as the first, with the optional attribute group
    between the sides and the signed number.  Four captured groups. *)
Definition complexMatch (cleaned : string)
  : option (string * string * option string * option string) :=
  let (g1, r1) := spanDigits cleaned in
  match r1 with
  | String c r2 =>
      if (c =? "d")%char then
        match spanDigits r2 with
        | (EmptyString, _) => None
        | (g2, r3) =>
            let (g3, r4) := attributeGroup r3 in
            match signedNumberToEnd r4 with
            | Some g4 => Some (g1, g2, g3, g4)
            | None => None
            end
        end
      else None
  | EmptyString => None
  end.

(** *** parseDiceExpression *)

(** [parseInt(g) || 1]: [NaN] and [0] are both falsy. *)
Definition parseIntOr1 (g : string) : Z :=
  match parseInt g with
  | Some n => if n =? 0 then 1 else n
  | None => 1
  end.

(** [count > 0 && count <= 100 && sides > 0 && sides <= 1000] *)
Definition withinBounds (count sides : Z) : bool :=
  (0 <? count) && (count <=? 100) && (0 <? sides) && (sides <=? 1000).

(** [attributeMatch.substring(1).toUpperCase()], kept when it is one of
    the six keys. *)
Definition attributeOfMatch (attributeMatch : string) : option Attribute :=
  let attr := toUpperCase (substring 1 (String.length attributeMatch - 1) attributeMatch) in
  find (fun a => String.eqb attr (attributeName a)) allAttributes.

(** The first [if (basicMatch)] block; [None] when control falls through
    to the second block.  A captured [sides] or modifier is never [NaN]
    (lemma [basicMatch_numeric]), the [None] branches of those two
    [parseInt] calls are there for totality only. *)
Definition parseBasic (cleaned : string) : option DiceExpression :=
  match basicMatch cleaned with
  | Some (g1, g2, g3) =>
      let count := parseIntOr1 g1 in
      match parseInt g2 with
      | Some sides =>
          match (match g3 with Some m => parseInt m | None => Some 0 end) with
          | Some modifier =>
              if withinBounds count sides
              then Some (mkDiceExpression count sides modifier None)
              else None
          | None => None
          end
      | None => None
      end
  | None => None
  end.

(** The second block, [if (complexMatch)]. *)
Definition parseComplex (cleaned : string) : option DiceExpression :=
  match complexMatch cleaned with
  | Some (g1, g2, g3, g4) =>
      let count := parseIntOr1 g1 in
      match parseInt g2 with
      | Some sides =>
          match (match g4 with Some m => parseInt m | None => Some 0 end) with
          | Some numericModifier =>
              let attributeBonus :=
                match g3 with
                | Some attributeMatch => attributeOfMatch attributeMatch
                | None => None
                end in
              if withinBounds count sides
              then Some (mkDiceExpression count sides numericModifier attributeBonus)
              else None
          | None => None
          end
      | None => None
      end
  | None => None
  end.

Definition parseDiceExpression (expression : string) : option DiceExpression :=
  let cleaned := removeWhiteSpace (toLowerCase expression) in
  match parseBasic cleaned with
  | Some parsed => Some parsed
  | None => parseComplex cleaned
  end.

Definition isValidExpression (expression : string) : bool :=
  match parseDiceExpression expression with
  | Some _ => true
  | None => false
  end.

(** *** Effects: the random source, the clock and [throw] *)

Inductive Error : Type := JsError (message : string).

(** [new Error('Invalid dice expression')] *)
Definition InvalidExpression : Error := JsError "Invalid dice expression".

(** What the evaluator reads from its environment: the 32-bit words
    [window.crypto.getRandomValues] hands out, when the browser has it;
    the values of [Math.random()]; and [Date.now()].  The [k]-th call of
    [secureRandom] reads the [k]-th element of the source it uses. *)
Record Runtime : Type := mkRuntime {
  cryptoWords : option (nat -> Z);
  mathRandom : nat -> Q;
  now : Z
}.

Inductive Outcome (A : Type) : Type :=
| Return (a : A)
| Throw (e : Error).

Arguments Return {A} a.
Arguments Throw {A} e.

(** A computation takes the number of random values consumed so far and
    gives its outcome with the number consumed after it. *)
Definition M (A : Type) : Type := nat -> Outcome A * nat.

Definition ret {A} (a : A) : M A := fun k => (Return a, k).

Definition throw {A} (e : Error) : M A := fun k => (Throw e, k).

Definition bind {A B} (m : M A) (f : A -> M B) : M B :=
  fun k =>
    match m k with
    | (Return a, k') => f a k'
    | (Throw e, k') => (Throw e, k')
    end.

Notation "x <- m ;; f" := (bind m (fun x => f))
  (at level 61, m at next level, right associativity).

Notation "' pat <- m ;; f" := (bind m (fun x => match x with pat => f end))
  (at level 61, pat pattern, m at next level, right associativity).

Section Evaluator.

Variable rt : Runtime.

(** The value the [k]-th call of [secureRandom] returns.  [array[0]] is
    an element of a [Uint32Array], hence the reduction modulo 2^32. *)
Definition randomValue (k : nat) : Q :=
  match cryptoWords rt with
  | Some words => (inject_Z (words k mod 2 ^ 32) / inject_Z (4294967295 + 1))%Q
  | None => mathRandom rt k
  end.

Definition secureRandom : M Q :=
  fun k => (Return (randomValue k), S k).

(** [Math.floor(this.secureRandom() * sides) + 1] *)
Definition rollDie (sides : Z) : M Z :=
  u <- secureRandom ;;
  ret (Math_floor (u * inject_Z sides)%Q + 1).

(** [request.advantage && parsed.sides === 20 && parsed.count === 1] *)
Definition hasAdvantage (request : RollRequest) (parsed : DiceExpression) : bool :=
  truthy (advantage request) && (sides parsed =? 20) && (count parsed =? 1).

Definition hasDisadvantage (request : RollRequest) (parsed : DiceExpression) : bool :=
  truthy (disadvantage request) && (sides parsed =? 20) && (count parsed =? 1).

Definition pairText (roll1 roll2 : Z) : string :=
  "(" ++ toString roll1 ++ ", " ++ toString roll2 ++ ")".

Definition rollWithAdvantage (sides : Z) : M (Z * string) :=
  roll1 <- rollDie sides ;;
  roll2 <- rollDie sides ;;
  ret (Z.max roll1 roll2, pairText roll1 roll2).

Definition rollWithDisadvantage (sides : Z) : M (Z * string) :=
  roll1 <- rollDie sides ;;
  roll2 <- rollDie sides ;;
  ret (Z.min roll1 roll2, pairText roll1 roll2).

(** The object pushed onto [rolls] for one result. *)
Definition rollEntry (sides result : Z) : RollEntry :=
  mkRollEntry sides result (result =? sides) (result =? 1).

(** The [for] loop of the normal mode with [n] iterations left; [rolls]
    and [total] are the two variables it updates. *)
Fixpoint normalRolls (n : nat) (sides : Z) (rolls : list RollEntry) (total : Z)
  : M (list RollEntry * Z) :=
  match n with
  | O => ret (rolls, total)
  | S n' =>
      result <- rollDie sides ;;
      normalRolls n' sides (rolls ++ [rollEntry sides result])%list (total + result)
  end.

(** One step of [modifiers.forEach]. *)
Definition appendModifier (details : string) (m : ModifierEntry) : string :=
  details ++ " " ++ (if value m >=? 0 then "+" else "") ++ toString (value m)
          ++ " (" ++ name m ++ ")".

(** The "Build details string" part of [rollDice]. *)
Definition buildDetails (hasAdvantage hasDisadvantage : bool) (parsed : DiceExpression)
    (rolls : list RollEntry) (modifiers : list ModifierEntry) : string :=
  let details := "" in
  let details :=
    if hasAdvantage then details ++ "(Advantage) "
    else if hasDisadvantage then details ++ "(Disadvantage) "
    else details in
  let details := details ++ toString (count parsed) ++ "d" ++ toString (sides parsed) in
  let details :=
    match rolls with
    | [r] => details ++ " → " ++ toString (result r)
    | _ => details ++ " → [" ++ join ", " (map (fun r => toString (result r)) rolls) ++ "]"
    end in
  fold_left appendModifier modifiers details.

(** Everything [rollDice] does once the expression is parsed. *)
Definition evaluate (request : RollRequest) (parsed : DiceExpression) : M DiceResult :=
  let rolls : list RollEntry := [] in
  let modifiers : list ModifierEntry := [] in
  let total := 0 in
  let hasAdvantage := hasAdvantage request parsed in
  let hasDisadvantage := hasDisadvantage request parsed in
  '(rolls, total) <-
    (if hasAdvantage || hasDisadvantage
     then
       rollResult <-
         (if hasAdvantage
          then rollWithAdvantage (sides parsed)
          else rollWithDisadvantage (sides parsed)) ;;
       ret ((rolls ++ [rollEntry (sides parsed) (fst rollResult)])%list,
            total + fst rollResult)
     else normalRolls (Z.to_nat (count parsed)) (sides parsed) rolls total) ;;
  let '(modifiers, total) :=
    if negb (modifier parsed =? 0)
    then ((modifiers ++ [mkModifierEntry "Modifier" (modifier parsed)])%list,
          total + modifier parsed)
    else (modifiers, total) in
  let '(modifiers, total) :=
    match attributeBonus parsed, character request with
    | Some attr, Some c =>
        let attributeValue := attributeScore (basicAttributes c) attr in
        let bonus := CharacterService.calculateModifier attributeValue in
        ((modifiers ++ [mkModifierEntry (attributeName attr ++ " Bonus") bonus])%list,
         total + bonus)
    | _, _ => (modifiers, total)
    end in
  let '(modifiers, total) :=
    match character request with
    | Some c =>
        if luck (resources c)
        then let luckBonus := 1 in
             ((modifiers ++ [mkModifierEntry "Luck Bonus" luckBonus])%list, total + luckBonus)
        else (modifiers, total)
    | None => (modifiers, total)
    end in
  let details := buildDetails hasAdvantage hasDisadvantage parsed rolls modifiers in
  ret (mkDiceResult (expression request) rolls modifiers total details (now rt)).

Definition rollDice (request : RollRequest) : M DiceResult :=
  match parseDiceExpression (expression request) with
  | None => throw InvalidExpression
  | Some parsed => evaluate request parsed
  end.

End Evaluator.

(** *** getCommonRolls *)






End DiceService.

(** * Vocabulary of the properties

    Notions the statements below are written with.  None of them is
    part of the services. *)

Module Notions.

Import JS DiceService.

(** ** Texts *)

Fixpoint allDigits (s : string) : bool :=
  match s with
  | EmptyString => true
  | String c r => isDigit c && allDigits r
  end.

(** Nothing more for a digit run to take: the end, or a non-digit. *)
Definition stopsDigits (s : string) : bool :=
  match s with
  | EmptyString => true
  | String c _ => negb (isDigit c)
  end.

(** The token of the second pattern that names an attribute. *)
Definition attributeToken (a : Attribute) : string :=
  match a with
  | STR => "str" | DEX => "dex" | CON => "con"
  | INT => "int" | WIS => "wis" | CHA => "cha"
  end.

Fixpoint occurs (c : ascii) (w : string) : bool :=
  match w with
  | EmptyString => false
  | String x r => (x =? c)%char || occurs c r
  end.

(** A byte that is part of no white-space character. *)
Definition plainChar (c : ascii) : bool :=
  forallb (fun w => negb (occurs c w)) whiteSpace.

Fixpoint allPlain (s : string) : bool :=
  match s with
  | EmptyString => true
  | String c r => plainChar c && allPlain r
  end.

Fixpoint endsNonDigit (s : string) : bool :=
  match s with
  | EmptyString => false
  | String c EmptyString => negb (isDigit c)
  | String _ r => endsNonDigit r
  end.

(** The die part of an expression: the two digit runs around [d]. *)
Definition dieSpec (x : string) : option (string * string) :=
  let (g1, r1) := spanDigits x in
  match r1 with
  | String c r2 =>
      if (c =? "d")%char then
        match spanDigits r2 with
        | (String c2 g2, EmptyString) => Some (g1, String c2 g2)
        | _ => None
        end
      else None
  | EmptyString => None
  end.

Definition signChar (negative : bool) : ascii :=
  if negative then "-"%char else "+"%char.

(** ** Rolls *)

Fixpoint sumZ (l : list Z) : Z :=
  match l with
  | [] => 0
  | x :: r => x + sumZ r
  end.

(** The face the [i]-th value of the random source gives on a die. *)
Definition face (rt : Runtime) (sides : Z) (i : nat) : Z :=
  Math_floor (randomValue rt i * inject_Z sides)%Q + 1.

Definition advantageMode (request : RollRequest) (parsed : DiceExpression) : bool :=
  hasAdvantage request parsed || hasDisadvantage request parsed.

(** Results kept in [rolls], in order, when the cursor is at [k]. *)
Definition keptResults (rt : Runtime) (request : RollRequest)
    (parsed : DiceExpression) (k : nat) : list Z :=
  if hasAdvantage request parsed
  then [Z.max (face rt (sides parsed) k) (face rt (sides parsed) (S k))]
  else if hasDisadvantage request parsed
  then [Z.min (face rt (sides parsed) k) (face rt (sides parsed) (S k))]
  else map (face rt (sides parsed)) (seq k (Z.to_nat (count parsed))).

Definition drawsUsed (request : RollRequest) (parsed : DiceExpression) : nat :=
  if advantageMode request parsed then 2%nat else Z.to_nat (count parsed).

Definition numericEntry (parsed : DiceExpression) : list ModifierEntry :=
  if modifier parsed =? 0 then []
  else [mkModifierEntry "Modifier" (modifier parsed)].

Definition attributeEntry (request : RollRequest) (parsed : DiceExpression)
  : list ModifierEntry :=
  match attributeBonus parsed, character request with
  | Some attr, Some c =>
      [mkModifierEntry (attributeName attr ++ " Bonus")
         (CharacterService.calculateModifier (attributeScore (basicAttributes c) attr))]
  | _, _ => []
  end.

Definition luckEntry (request : RollRequest) : list ModifierEntry :=
  match character request with
  | Some c => if luck (resources c) then [mkModifierEntry "Luck Bonus" 1] else []
  | None => []
  end.

Definition appliedModifiers (request : RollRequest) (parsed : DiceExpression)
  : list ModifierEntry :=
  (numericEntry parsed ++ attributeEntry request parsed ++ luckEntry request)%list.

(** The same request with other advantage and disadvantage flags. *)
Definition withFlags (request : RollRequest) (adv dis : option bool) : RollRequest :=
  mkRollRequest (expression request) (character request) adv dis (description request).

(** The entries of [modifiers] named after an attribute. *)
Definition isAttributeBonus (m : ModifierEntry) : bool :=
  existsb (fun a => String.eqb (name m) (attributeName a ++ " Bonus")) allAttributes.

End Notions.

(** ** Sample data *)

Module Samples.

Import DiceService Notions.

(** A source that returns 0.65 and 0.3 in turn: on a d20, faces 14 and 7. *)
Definition alternating : Runtime :=
  mkRuntime None (fun k => if Nat.even k then 13 # 20 else 6 # 20)%Q 1700000000000.


Definition fighter : Character :=
  mkCharacter (mkBasicAttributes 16 8 7 10 12 3)
              (mkResources 1 10 10 12 3 (-1) 0 true).

Definition plain (expression : string) : RollRequest :=
  mkRollRequest expression None None None None.

Definition withAdvantage (expression : string) : RollRequest :=
  mkRollRequest expression None (Some true) None None.

Definition withBoth (expression : string) : RollRequest :=
  mkRollRequest expression None (Some true) (Some true) None.

Definition asFighter (expression : string) : RollRequest :=
  mkRollRequest expression (Some fighter) None None None.

End Samples.

(** * The rest of the two services, and the components that call them

    Further conventions.

    - A [Map] with string keys is the list of its entries in insertion
      order.
    - What [localStorage] holds under the key of a service is modelled
      by what [JSON.parse] makes of it; [JSON.stringify] followed by
      [JSON.parse] gives back the entries it was given.
    - The static map of a service and the storage are a state that each
      function takes and returns.  A promise of an [async] function is
      settled at once, a rejection is the [Throw] outcome.
    - The objects an update carries are fresh: no two stored characters
      share a part. *)

(** ** More JavaScript built-ins *)

Module JSText.

Import JS.

(** [spaceAt] for any table of byte sequences. *)
Definition prefixLength (table : list string) (s : string) : nat :=
  match find (fun w => prefix w s) table with
  | Some w => String.length w
  | None => O
  end.

(** Drop leading characters of the table; [skip] bytes of one are still
    to be dropped. *)
Fixpoint dropLeading (table : list string) (skip : nat) (s : string) : string :=
  match s with
  | EmptyString => EmptyString
  | String c r =>
      match skip with
      | S k => dropLeading table k r
      | O =>
          match prefixLength table s with
          | O => s
          | S k => dropLeading table k r
          end
      end
  end.

Definition reverse (s : string) : string :=
  string_of_list_ascii (rev (list_ascii_of_string s)).

(** [s.trim()]: the white space of [\s] is removed at both ends. *)
Definition trimStart (s : string) : string := dropLeading whiteSpace 0 s.

Definition trimEnd (s : string) : string :=
  reverse (dropLeading (map reverse whiteSpace) 0 (reverse s)).

Definition trim (s : string) : string := trimEnd (trimStart s).

(** [s.length]: the number of UTF-16 code units of the text whose UTF-8
    bytes are [s].  A byte that continues a character counts nothing,
    the first byte of a four-byte character counts two. *)
Fixpoint utf16Length (s : string) : nat :=
  match s with
  | EmptyString => O
  | String c r =>
      ((if ((128 <=? code c) && (code c <? 192))%N then 0
        else if (240 <=? code c)%N then 2 else 1)
       + utf16Length r)%nat
  end.

(** [s.includes(sub)] *)
Fixpoint includes (s sub : string) : bool :=
  prefix sub s
  || match s with
     | EmptyString => false
     | String _ r => includes r sub
     end.

(** Length in bytes of the line terminator [s] starts with (LF, CR,
    U+2028 or U+2029), [0] when it starts with none: what the dot of a
    pattern does not match. *)
Definition lineTerminator (s : string) : nat :=
  match s with
  | EmptyString => O
  | String c r =>
      if ((code c =? 10) || (code c =? 13))%N then 1%nat
      else if (code c =? 226)%N then
        match r with
        | String c2 (String c3 _) =>
            if ((code c2 =? 128) && ((code c3 =? 168) || (code c3 =? 169)))%N
            then 3%nat else O
        | _ => O
        end
      else O
  end.

(** A byte that continues a character. *)
Definition continuation (c : ascii) : bool :=
  ((128 <=? code c) && (code c <? 192))%N.

End JSText.

Module JSArray.



End JSArray.

Module JSMap.

(** A [Map] with string keys: its entries in insertion order. *)
Definition Map (V : Type) : Type := list (string * V).

Fixpoint get {V} (m : Map V) (key : string) : option V :=
  match m with
  | [] => None
  | (k, v) :: r => if String.eqb k key then Some v else get r key
  end.

Definition has {V} (m : Map V) (key : string) : bool :=
  match get m key with
  | Some _ => true
  | None => false
  end.

(** [m.set(key, value)]: a present key keeps its place. *)
Fixpoint set {V} (m : Map V) (key : string) (value : V) : Map V :=
  match m with
  | [] => [(key, value)]
  | (k, v) :: r =>
      if String.eqb k key then (key, value) :: r else (k, v) :: set r key value
  end.

(** [m.delete(key)] *)
Definition delete {V} (m : Map V) (key : string) : Map V :=
  filter (fun e => negb (String.eqb (fst e) key)) m.

(** [new Map(entries)] *)
Definition fromEntries {V} (entries : list (string * V)) : Map V :=
  fold_left (fun m e => set m (fst e) (snd e)) entries [].

(** [Array.from(m.entries())] *)
Definition entries {V} (m : Map V) : list (string * V) := m.

End JSMap.

(** What [localStorage] holds under the key of a service that keeps a
    map there: nothing (or the empty text, which is falsy as well), a
    text that [JSON.parse] reads as these entries, or a text it cannot
    read as entries. *)
Module LocalStorage.

Inductive Item (V : Type) : Type :=
| NoItem
| Json (data : list (string * V))
| Unreadable.

Arguments NoItem {V}.
Arguments Json {V} data.
Arguments Unreadable {V}.

End LocalStorage.

(** ** The core types a character is made of *)

Module Types.

Record Weapon : Type := mkWeapon {
  weaponId : string;
  weaponName : string;
  damage : string;
  weaponType : string;
  weaponSlots : Z;
  weaponEquipped : bool
}.

Record Armor : Type := mkArmor {
  armorId : string;
  armorName : string;
  baseAC : Z;
  maxAttributeBonus : Z;
  armorSlots : Z;
  equipped : bool
}.

Record Equipment : Type := mkEquipment {
  equipmentId : string;
  equipmentName : string;
  equipmentDescription : option string;
  equipmentSlots : Z;
  quantity : Z
}.

Record CharacterInfo : Type := mkCharacterInfo {
  characterName : string;
  playerName : string;
  ancestry : string;
  class : string;
  background : string;
  deity : string;
  characterImage : string
}.

(** The whole [Character].  [core] holds its [basicAttributes] and
    [resources], the part the dice service reads. *)
Record CharacterRecord : Type := mkCharacterRecord {
  id : string;
  userId : string;
  sessionId : string;
  characterInfo : CharacterInfo;
  core : Character;
  weapons : list Weapon;
  armor : list Armor;
  equipment : list Equipment;
  spells : list string;
  talents : list string
}.

Inductive Role : Type := GM | Player.

Record User : Type := mkUser {
  userIdOf : string;
  username : string;
  role : Role
}.

End Types.

(** ** DiceService: suggestions *)

Module Suggestions.

Import JS JSText DiceService.

(** The first test: digits, then perhaps [d], then digits, to the end
    of the text. *)
Definition diceSoFar (cleaned : string) : bool :=
  let '(_, r) := spanDigits cleaned in
  let r :=
    match r with
    | String c r' => if (c =? "d")%char then r' else r
    | EmptyString => r
    end in
  let '(_, r) := spanDigits r in
  match r with
  | EmptyString => true
  | _ => false
  end.

Definition nums : list Z := [4; 6; 8; 10; 12; 20; 100].

Definition basicSuggestions (cleaned : string) : list string :=
  flat_map
    (fun num =>
       if prefix cleaned (toString num) || prefix cleaned ("d" ++ toString num)
       then ("1d" ++ toString num)
              :: (if num <=? 20
                  then ["2d" ++ toString num; "3d" ++ toString num]
                  else [])
       else [])
    nums.

(** The last two adjacent lower-case letters of the line [s] starts
    with. *)
Fixpoint lastPairOfLine (s : string) : option string :=
  match s with
  | EmptyString => None
  | String c r =>
      match lineTerminator s with
      | S _ => None
      | O =>
          match lastPairOfLine r with
          | Some letters => Some letters
          | None =>
              match r with
              | String c' _ =>
                  if isLower c && isLower c'
                  then Some (String c (String c' EmptyString))
                  else None
              | EmptyString => None
              end
          end
      end
  end.

(** The text from the end of the line [s] starts with. *)
Fixpoint afterLine (s : string) : string :=
  match s with
  | EmptyString => EmptyString
  | String c r =>
      match lineTerminator s with
      | S _ => s
      | O => afterLine r
      end
  end.

(** [cleaned.replace(pattern, '$1')] for the pattern "anything, two or
    three lower-case letters, anything": the match starts at the first
    character from which the rest of the line holds two adjacent
    letters and runs to the end of that line; the greedy first part
    leaves the group the last such pair, which a third letter cannot
    follow. *)
Fixpoint replaceLetterGroup (s : string) : string :=
  match s with
  | EmptyString => EmptyString
  | String c r =>
      match (if continuation c then None else lastPairOfLine s) with
      | Some letters => letters ++ afterLine s
      | None => String c (replaceLetterGroup r)
      end
  end.

Definition attrs : list Attribute := [STR; DEX; CON; INT; WIS; CHA].

Definition attributeSuggestions (cleaned : string) : list string :=
  if existsb (fun name => includes cleaned name) ["str"; "dex"; "con"; "int"; "wis"; "cha"]
  then
    flat_map
      (fun attr =>
         if prefix (replaceLetterGroup cleaned) (toLowerCase (attributeName attr))
         then ["1d20+" ++ attributeName attr]
         else [])
      attrs
  else [].

Definition getSuggestions (input : string) : list string :=
  let cleaned := trim (toLowerCase input) in
  let suggestions := if diceSoFar cleaned then basicSuggestions cleaned else [] in
  let suggestions := (suggestions ++ attributeSuggestions cleaned)%list in
  firstn 5 suggestions.

End Suggestions.

(** ** DiceService: the roll history *)

Module RollHistory.

Import LocalStorage.

(** [DiceRoll] of the core types. *)
Record DiceRoll : Type := mkDiceRoll {
  id : string;
  sessionId : string;
  characterId : string;
  rollerUsername : string;
  expression : string;
  result : Z;
  details : string;
  timestamp : Z
}.

(** The static [rollHistory] and the browser storage; [writable] is
    false when [localStorage.setItem] throws. *)
Record State : Type := mkState {
  rollHistory : JSMap.Map (list DiceRoll);
  item : LocalStorage.Item (list DiceRoll);
  writable : bool
}.

(** [JSON.stringify] of the entries, then [setItem]; a failure is
    caught and logged. *)
Definition saveToStorage (st : State) : State :=
  if writable st
  then mkState (rollHistory st) (Json (JSMap.entries (rollHistory st))) true
  else st.

Definition loadFromStorage (st : State) : State :=
  match item st with
  | NoItem => st
  | Json data => mkState (JSMap.fromEntries data) (item st) (writable st)
  | Unreadable => mkState [] (item st) (writable st)
  end.

Definition saveDiceRoll (sessionId : string) (diceRoll : DiceRoll) (st : State) : State :=
  let rollHistory :=
    if negb (JSMap.has (rollHistory st) sessionId)
    then JSMap.set (rollHistory st) sessionId []
    else rollHistory st in
  let rolls :=
    match JSMap.get rollHistory sessionId with
    | Some rolls => rolls
    | None => []
    end in
  let rolls := (rolls ++ [diceRoll])%list in
  let rolls :=
    if (100 <? length rolls)%nat
    then skipn (length rolls - 100) rolls
    else rolls in
  let rollHistory := JSMap.set rollHistory sessionId rolls in
  saveToStorage (mkState rollHistory (item st) (writable st)).

Definition getRollHistory (sessionId : string) (st : State) : list DiceRoll :=
  match JSMap.get (rollHistory st) sessionId with
  | Some rolls => rolls
  | None => []
  end.

Definition clearSessionHistory (sessionId : string) (st : State) : State :=
  saveToStorage
    (mkState (JSMap.delete (rollHistory st) sessionId) (item st) (writable st)).

(** [initialize], run when the module is loaded, on the empty map. *)
Definition initialize (item : Item (list DiceRoll)) (writable : bool) : State :=
  loadFromStorage (mkState [] item writable).

End RollHistory.

(** ** The DiceRoller component *)

Module DiceRoller.

Import JS JSText DiceService.

(** [buildFinalExpression], with the state it closes over as arguments;
    an empty [selectedAttribute] is [None]. *)
Definition buildFinalExpression (expression : string) (modifier : Z)
    (selectedAttribute : option Attribute) (character : option Character) : string :=
  let finalExpression := expression in
  let finalExpression :=
    if negb (modifier =? 0)
    then finalExpression ++ (if modifier >=? 0 then "+" else "") ++ toString modifier
    else finalExpression in
  let finalExpression :=
    match selectedAttribute, character with
    | Some attr, Some _ => finalExpression ++ "+" ++ attributeName attr
    | _, _ => finalExpression
    end in
  finalExpression.

(** What a click on the roll button ends in. *)
Inductive Handled : Type :=
| Refused (toast : string)
| Completed (result : DiceResult) (request : RollRequest)
| Failed (toast : string) (description : string).

(** [description.trim() || undefined] *)
Definition descriptionOf (description : string) : option string :=
  match trim description with
  | EmptyString => None
  | d => Some d
  end.

(** [handleRoll] without the animation delay and the visual effects. *)
Definition handleRoll (rt : Runtime) (expression : string) (modifier : Z)
    (selectedAttribute : option Attribute) (character : option Character)
    (advantage disadvantage : bool) (description : string) (k : nat)
  : Handled * nat :=
  match parseDiceExpression expression with
  | None => (Refused "Invalid dice expression", k)
  | Some _ =>
      let request :=
        mkRollRequest
          (buildFinalExpression expression modifier selectedAttribute character)
          character (Some advantage) (Some disadvantage) (descriptionOf description) in
      match rollDice rt request k with
      | (Return result, k') => (Completed result request, k')
      | (Throw (JsError message), k') => (Failed "Roll failed" message, k')
      end
  end.


End DiceRoller.

(** ** CharacterService: the rest *)

Module CharacterStore.

Import JS JSText JSArray Types.

(** [calculateAC]; of the character it reads the DEX score and the
    armour.  [armourBase] is the variable [baseAC] of the source. *)
Definition calculateAC (attributes : BasicAttributes) (armor : list Armor) : Z :=
  let dexModifier := CharacterService.calculateModifier (attrDEX attributes) in
  let '(armourBase, maxDexBonus) :=
    match find equipped armor with
    | Some equippedArmor => (baseAC equippedArmor, maxAttributeBonus equippedArmor)
    | None => (10, 999)
    end in
  let appliedDexBonus := Z.min dexModifier maxDexBonus in
  armourBase + appliedDexBonus.

(** *** validateCharacter *)

(** [Partial<CharacterCreationData>]: an absent property is [None]. *)
Module Data.
Record t : Type := mk {
  characterName : option string;
  playerName : option string;
  ancestry : option string;
  class : option string;
  background : option string;
  deity : option string;
  characterImage : option string;
  basicAttributes : option BasicAttributes;
  resources : option Resources
}.
End Data.

(** [CharacterValidationResult['errors']] *)
Module Errors.
Record t : Type := mk {
  characterName : option string;
  playerName : option string;
  ancestry : option string;
  class : option string;
  background : option string;
  attributes : option string;
  resources : option string;
  general : option string
}.
End Errors.

Record CharacterValidationResult : Type := mkValidation {
  isValid : bool;
  errors : Errors.t
}.

(** [!text?.trim()] *)
Definition blank (text : option string) : bool :=
  match text with
  | None => true
  | Some t => match trim t with EmptyString => true | _ => false end
  end.

(** [text.trim().length] *)
Definition trimmedLength (text : option string) : nat :=
  match text with
  | None => O
  | Some t => utf16Length (trim t)
  end.

Definition attributeValues (attrs : BasicAttributes) : list Z :=
  [attrSTR attrs; attrDEX attrs; attrCON attrs; attrINT attrs; attrWIS attrs; attrCHA attrs].

(** [Object.values(errors)]: the messages in the order the checks set
    them. *)
Definition errorValues (e : Errors.t) : list string :=
  concat (map (fun m => match m with Some t => [t] | None => [] end)
            [Errors.characterName e; Errors.playerName e; Errors.ancestry e;
             Errors.class e; Errors.background e; Errors.attributes e;
             Errors.resources e; Errors.general e]).

Definition validateCharacter (data : Data.t) : CharacterValidationResult :=
  let characterName :=
    if blank (Data.characterName data) then Some "Character name is required"
    else if (trimmedLength (Data.characterName data) <? 2)%nat
    then Some "Character name must be at least 2 characters"
    else if (50 <? trimmedLength (Data.characterName data))%nat
    then Some "Character name must be less than 50 characters"
    else None in
  let playerName :=
    if blank (Data.playerName data) then Some "Player name is required"
    else if (trimmedLength (Data.playerName data) <? 2)%nat
    then Some "Player name must be at least 2 characters"
    else None in
  let ancestry :=
    if blank (Data.ancestry data) then Some "Ancestry is required" else None in
  let class :=
    if blank (Data.class data) then Some "Class is required" else None in
  let background :=
    if blank (Data.background data) then Some "Background is required" else None in
  let attributes :=
    match Data.basicAttributes data with
    | Some attrs =>
        let attributes := None in
        let attributes :=
          if existsb (fun val => (val <? 3) || (20 <? val)) (attributeValues attrs)
          then Some "Attributes must be between 3 and 20"
          else attributes in
        let totalPoints := fold_left (fun sum val => sum + val) (attributeValues attrs) 0 in
        if (totalPoints <? 48) || (90 <? totalPoints)
        then Some "Total attribute points should be between 48 and 90"
        else attributes
    | None => None
    end in
  let resources :=
    match Data.resources data with
    | Some res =>
        let resources := None in
        let resources :=
          if (level res <? 1) || (20 <? level res)
          then Some "Level must be between 1 and 20" else resources in
        let resources :=
          if (HP res <? 1) || (maxHP res <? 1)
          then Some "HP and Max HP must be at least 1" else resources in
        if maxHP res <? HP res
        then Some "Current HP cannot exceed Max HP" else resources
    | None => None
    end in
  let errors :=
    Errors.mk characterName playerName ancestry class background attributes resources None in
  mkValidation (match errorValues errors with [] => true | _ => false end) errors.

(** *** createDefaultCharacter and rollRandomStats *)

(** [CharacterCreationData], every property present. *)
Record CharacterCreationData : Type := mkCreationData {
  newInfo : CharacterInfo;
  newAttributes : BasicAttributes;
  newResources : Resources
}.

(** The data as [validateCharacter] receives it. *)
Definition asPartial (data : CharacterCreationData) : Data.t :=
  Data.mk (Some (characterName (newInfo data))) (Some (playerName (newInfo data)))
    (Some (ancestry (newInfo data))) (Some (class (newInfo data)))
    (Some (background (newInfo data))) (Some (deity (newInfo data)))
    (Some (characterImage (newInfo data)))
    (Some (newAttributes data)) (Some (newResources data)).

(** A call of [Math.random()]: the cursor counts the calls. *)
Definition mathRandomCall (rt : DiceService.Runtime) : DiceService.M Q :=
  fun k => (DiceService.Return (DiceService.mathRandom rt k), S k).

Import DiceService.

Definition themes : list string :=
  [ "fantasy-warrior"; "medieval-character"; "fantasy-portrait";
    "warrior-armor"; "mage-wizard"; "rogue-thief"; "fantasy-art" ].

(** [generateCharacterImage]: the theme is computed and not used, its
    random value is drawn all the same. *)
Definition generateCharacterImage (rt : Runtime) (ancestry : option string) : M string :=
  theme <-
    (match ancestry with
     | Some (String c r) => ret (Some (toLowerCase (String c r) ++ "-fantasy"))
     | _ =>
         u <- mathRandomCall rt ;;
         ret (nth_error themes
                (Z.to_nat (Math_floor (u * inject_Z (Z.of_nat (length themes)))%Q)))
     end) ;;
  u <- mathRandomCall rt ;;
  let seed := Math_floor (u * 1000)%Q in
  ret ("https://images.unsplash.com/photo-1578662996442-48f60103fc96"
       ++ "?w=400&h=400&fit=crop&crop=face&auto=format&q=80&ixid=" ++ toString seed).

Definition createDefaultCharacter (rt : Runtime) (user : User) (sessionId : string)
  : M CharacterCreationData :=
  image <- generateCharacterImage rt None ;;
  ret (mkCreationData
         (mkCharacterInfo "" (username user) "" "" "" "" image)
         (mkBasicAttributes 10 10 10 10 10 10)
         (mkResources 1 8 8 10 0 0 0 false)).




(** *** The character store *)

Import LocalStorage.

(** The static [characters] and the browser storage; [writable] is
    false when [localStorage.setItem] throws. *)
Record Store : Type := mkStore {
  characters : JSMap.Map CharacterRecord;
  item : Item CharacterRecord;
  writable : bool
}.

Definition saveCharactersToStorage (st : Store) : Store :=
  if writable st
  then mkStore (characters st) (Json (JSMap.entries (characters st))) true
  else st.

Definition loadCharactersFromStorage (st : Store) : Store :=
  match item st with
  | NoItem => st
  | Json data => mkStore (JSMap.fromEntries data) (item st) (writable st)
  | Unreadable => mkStore [] (item st) (writable st)
  end.

(** [{ ...resources, AC: ac }], and the assignment [resources.AC = ac]. *)
Definition withAC (r : Resources) (ac : Z) : Resources :=
  mkResources (level r) (HP r) (maxHP r) ac (meleeAtkBonus r) (rangedAtkBonus r)
    (spellcastingBonus r) (luck r).

(** [createCharacter]; the promise it returns is settled at once, a
    rejection is the [Throw] outcome.  [now] is [Date.now()] and
    [suffix] the text [Math.random().toString(36).substr(2, 9)]. *)
Definition createCharacter (now : Z) (suffix : string) (data : CharacterCreationData)
    (user : User) (session : string) (st : Store)
  : Outcome CharacterRecord * Store :=
  let validation := validateCharacter (asPartial data) in
  if negb (isValid validation)
  then (Throw (JsError ("Character validation failed: "
                        ++ join ", " (errorValues (errors validation)))), st)
  else
    let characterId := "char-" ++ toString now ++ "-" ++ suffix in
    let character :=
      mkCharacterRecord characterId (userIdOf user) session
        (mkCharacterInfo
           (trim (characterName (newInfo data))) (trim (playerName (newInfo data)))
           (trim (ancestry (newInfo data))) (trim (class (newInfo data)))
           (trim (background (newInfo data))) (trim (deity (newInfo data)))
           (characterImage (newInfo data)))
        (mkCharacter (newAttributes data)
           (withAC (newResources data) (calculateAC (newAttributes data) [])))
        [] [] [] [] [] in
    let st := mkStore (JSMap.set (characters st) characterId character)
                      (item st) (writable st) in
    (Return character, saveCharactersToStorage st).

(** [Partial<Character>] *)
Module Updates.
Record t : Type := mk {
  id : option string;
  userId : option string;
  sessionId : option string;
  characterInfo : option CharacterInfo;
  basicAttributes : option BasicAttributes;
  resources : option Resources;
  weapons : option (list Weapon);
  armor : option (list Armor);
  equipment : option (list Equipment);
  spells : option (list string);
  talents : option (list string)
}.
Definition none : t := mk None None None None None None None None None None None.
End Updates.

Definition orElse {A} (update : option A) (existing : A) : A :=
  match update with
  | Some a => a
  | None => existing
  end.

Definition isSome {A} (o : option A) : bool :=
  match o with
  | Some _ => true
  | None => false
  end.

Definition updateCharacter (characterId : string) (updates : Updates.t) (st : Store)
  : Outcome CharacterRecord * Store :=
  match JSMap.get (characters st) characterId with
  | None => (Throw (JsError "Character not found"), st)
  | Some existingCharacter =>
      let updatedCharacter :=
        mkCharacterRecord characterId
          (orElse (Updates.userId updates) (userId existingCharacter))
          (orElse (Updates.sessionId updates) (sessionId existingCharacter))
          (orElse (Updates.characterInfo updates) (characterInfo existingCharacter))
          (mkCharacter
             (orElse (Updates.basicAttributes updates)
                     (basicAttributes (core existingCharacter)))
             (orElse (Updates.resources updates) (resources (core existingCharacter))))
          (orElse (Updates.weapons updates) (weapons existingCharacter))
          (orElse (Updates.armor updates) (armor existingCharacter))
          (orElse (Updates.equipment updates) (equipment existingCharacter))
          (orElse (Updates.spells updates) (spells existingCharacter))
          (orElse (Updates.talents updates) (talents existingCharacter)) in
      let updatedCharacter :=
        if isSome (Updates.basicAttributes updates) || isSome (Updates.armor updates)
        then
          mkCharacterRecord (id updatedCharacter) (userId updatedCharacter)
            (sessionId updatedCharacter) (characterInfo updatedCharacter)
            (mkCharacter (basicAttributes (core updatedCharacter))
               (withAC (resources (core updatedCharacter))
                  (calculateAC (basicAttributes (core updatedCharacter))
                     (armor updatedCharacter))))
            (weapons updatedCharacter) (armor updatedCharacter)
            (equipment updatedCharacter) (spells updatedCharacter)
            (talents updatedCharacter)
        else updatedCharacter in
      let st := mkStore (JSMap.set (characters st) characterId updatedCharacter)
                        (item st) (writable st) in
      (Return updatedCharacter, saveCharactersToStorage st)
  end.

(** [initialize], run when the module is loaded, on the empty map. *)
Definition initialize (item : Item CharacterRecord) (writable : bool) : Store :=
  loadCharactersFromStorage (mkStore [] item writable).

Definition getCharacter (characterId : string) (st : Store) : option CharacterRecord :=
  JSMap.get (characters st) characterId.

(** [Array.from(this.characters.values())] *)
Definition allCharacters (st : Store) : list CharacterRecord :=
  map snd (characters st).

Definition getCharactersByUser (user : string) (st : Store) : list CharacterRecord :=
  filter (fun char => String.eqb (userId char) user) (allCharacters st).

Definition getCharactersBySession (session : string) (st : Store) : list CharacterRecord :=
  filter (fun char => String.eqb (sessionId char) session) (allCharacters st).

Definition deleteCharacter (characterId : string) (st : Store) : Store :=
  saveCharactersToStorage
    (mkStore (JSMap.delete (characters st) characterId) (item st) (writable st)).

End CharacterStore.

(** ** The InventoryManager component *)

Module InventoryManager.

Import JS Types CharacterStore DiceService.

(** [Math.min(...values, 99)] *)
Definition minWith99 (values : list Z) : Z := fold_left Z.min values 99.

(** What can be equipped, and the three kinds of item. *)
Inductive Wearable : Type := WeaponKind | ArmorKind.

Inductive NewItem : Type :=
| NewWeapon (item : Weapon)
| NewArmor (item : Armor)
| NewEquipment (item : Equipment).

Inductive ItemKind : Type := AWeapon | AnArmor | AnEquipment.

(** [{ ...weapon, equipped: !weapon.equipped }] for the weapon with the
    id, the weapon itself otherwise; the same for an armour. *)
Definition toggleWeapon (id' : string) (w : Weapon) : Weapon :=
  if String.eqb (weaponId w) id'
  then mkWeapon (weaponId w) (weaponName w) (damage w) (weaponType w) (weaponSlots w)
                (negb (weaponEquipped w))
  else w.

Definition toggleEquipped (id' : string) (a : Armor) : Armor :=
  if String.eqb (armorId a) id'
  then mkArmor (armorId a) (armorName a) (baseAC a) (maxAttributeBonus a)
               (armorSlots a) (negb (equipped a))
  else a.

(** [handleToggleEquipped]: the update it hands to [onCharacterUpdate]. *)
Definition handleToggleEquipped (character : CharacterRecord) (type : Wearable)
    (id' : string) : Updates.t :=
  match type with
  | WeaponKind =>
      Updates.mk None None None None None None
        (Some (map (toggleWeapon id') (weapons character))) None None None None
  | ArmorKind =>
      let toggled := map (toggleEquipped id') (armor character) in
      let equippedArmor := filter equipped toggled in
      let armourBase := fold_left (fun ac a => ac + baseAC a) equippedArmor 10 in
      let dexMod :=
        CharacterService.calculateModifier (attrDEX (basicAttributes (core character))) in
      let maxDexBonus := minWith99 (map maxAttributeBonus equippedArmor) in
      let finalAC := armourBase + Z.min dexMod maxDexBonus in
      Updates.mk None None None None None
        (Some (withAC (resources (core character)) finalAC))
        None (Some toggled) None None None
  end.

(** [handleQuantityChange] *)
Definition handleQuantityChange (character : CharacterRecord) (id' : string) (delta : Z)
  : Updates.t :=
  Updates.mk None None None None None None None None
    (Some
       (filter (fun item => 0 <? quantity item)
          (map (fun item =>
                  if String.eqb (equipmentId item) id'
                  then mkEquipment (equipmentId item) (equipmentName item)
                         (equipmentDescription item) (equipmentSlots item)
                         (Z.max 0 (quantity item + delta))
                  else item)
               (equipment character))))
    None None.

(** [handleRemoveItem] *)
Definition handleRemoveItem (character : CharacterRecord) (type : ItemKind) (id' : string)
  : Updates.t :=
  match type with
  | AWeapon =>
      Updates.mk None None None None None None
        (Some (filter (fun item => negb (String.eqb (weaponId item) id'))
                 (weapons character)))
        None None None None
  | AnArmor =>
      let kept :=
        filter (fun item => negb (String.eqb (armorId item) id')) (armor character) in
      let remainingArmor := filter equipped kept in
      let armourBase := fold_left (fun ac a => ac + baseAC a) remainingArmor 10 in
      let dexMod :=
        CharacterService.calculateModifier (attrDEX (basicAttributes (core character))) in
      let maxDexBonus :=
        if (0 <? length remainingArmor)%nat
        then minWith99 (map maxAttributeBonus remainingArmor)
        else 99 in
      let finalAC := armourBase + Z.min dexMod maxDexBonus in
      Updates.mk None None None None None
        (Some (withAC (resources (core character)) finalAC))
        None (Some kept) None None None
  | AnEquipment =>
      Updates.mk None None None None None None None None
        (Some (filter (fun item => negb (String.eqb (equipmentId item) id'))
                 (equipment character)))
        None None
  end.

(** [handleAddItem]; the item comes with its kind.  [now] is
    [Date.now()] and [suffix] the text
    [Math.random().toString(36).substr(2, 9)]. *)
Definition handleAddItem (character : CharacterRecord) (now : Z) (suffix : string)
    (item : NewItem) : Updates.t :=
  let newId type := type ++ "-" ++ toString now ++ "-" ++ suffix in
  match item with
  | NewWeapon w =>
      Updates.mk None None None None None None
        (Some (weapons character
               ++ [mkWeapon (newId "weapon") (weaponName w) (damage w) (weaponType w)
                     (weaponSlots w) (weaponEquipped w)])%list)
        None None None None
  | NewArmor a =>
      Updates.mk None None None None None None None
        (Some (armor character
               ++ [mkArmor (newId "armor") (armorName a) (baseAC a) (maxAttributeBonus a)
                     (armorSlots a) (equipped a)])%list)
        None None None
  | NewEquipment e =>
      Updates.mk None None None None None None None None
        (Some (equipment character
               ++ [mkEquipment (newId "equipment") (equipmentName e)
                     (equipmentDescription e) (equipmentSlots e) (quantity e)])%list)
        None None
  end.

(** [onCharacterUpdate] as the page wires it: [updateCharacter] on the
    id of the character shown. *)
Definition handleCharacterUpdate (character : CharacterRecord) (updates : Updates.t)
    (st : Store) : Outcome CharacterRecord * Store :=
  updateCharacter (id character) updates st.

End InventoryManager.

(** ** Vocabulary of the further properties *)

Module TextNotions.

Import JS DiceService Notions Suggestions.

(** [`${m >= 0 ? '+' : ''}${m}`] *)
Definition signedText (m : Z) : string :=
  (if m >=? 0 then "+" else "") ++ toString m.



(** Text of ASCII characters only. *)
Fixpoint isAscii (s : string) : bool :=
  match s with
  | EmptyString => true
  | String c r => (code c <? 128)%N && isAscii r
  end.

(** The ASCII characters of the class [\s]. *)
Definition isAsciiSpace (c : ascii) : bool :=
  ((9 <=? code c) && (code c <=? 13) || (code c =? 32))%N.

(** Every expression [getSuggestions] can offer. *)
Definition candidates : list string :=
  List.app
    (flat_map
       (fun num => ["1d" ++ toString num; "2d" ++ toString num; "3d" ++ toString num])
       nums)
    (map (fun attr => "1d20+" ++ attributeName attr) attrs).

(** An ASCII byte that ends no line. *)
Definition lineByte (c : ascii) : bool :=
  ((code c <? 128) && negb (code c =? 10) && negb (code c =? 13))%N.

(** ASCII text on one line. *)
Fixpoint oneLine (s : string) : bool :=
  match s with
  | EmptyString => true
  | String c r => lineByte c && oneLine r
  end.

(** Text that does not start with white space. *)
Definition startsPlain (s : string) : bool :=
  match s with
  | EmptyString => true
  | String c _ => plainChar c
  end.

(** Text of digits and the letter [d] only. *)
Fixpoint diceLetters (s : string) : bool :=
  match s with
  | EmptyString => true
  | String c r => (isDigit c || (c =? "d")%char) && diceLetters r
  end.

End TextNotions.

Module RollNotions.

Import DiceService.




End RollNotions.

Module HistoryNotions.

Import LocalStorage RollHistory.

(** The last [n] elements of a list. *)
Definition lastN {A} (n : nat) (l : list A) : list A := skipn (length l - n) l.

(** A call that changes the history. *)
Inductive HistoryOp : Type :=
| Save (sessionId : string) (diceRoll : DiceRoll)
| Clear (sessionId : string).

Definition applyOp (st : State) (op : HistoryOp) : State :=
  match op with
  | Save s r => saveDiceRoll s r st
  | Clear s => clearSessionHistory s st
  end.

(** The calls of a list, one after the other. *)
Definition runOps (ops : list HistoryOp) (st : State) : State :=
  fold_left applyOp ops st.

(** Every roll saved for the session since it was last cleared, with no
    cap. *)
Definition uncappedStep (session : string) (h : list DiceRoll) (op : HistoryOp)
  : list DiceRoll :=
  match op with
  | Save s r => if String.eqb s session then (h ++ [r])%list else h
  | Clear s => if String.eqb s session then [] else h
  end.

Definition uncapped (session : string) (ops : list HistoryOp) : list DiceRoll :=
  fold_left (uncappedStep session) ops [].

(** The keys of a map, in order. *)
Definition keys {V} (m : JSMap.Map V) : list string := map fst m.

End HistoryNotions.

Module SheetNotions.

Import JS Types DiceService CharacterStore Notions HistoryNotions.

(** The same scores with another DEX. *)
Definition withDEX (attrs : BasicAttributes) (dex : Z) : BasicAttributes :=
  mkBasicAttributes (attrSTR attrs) dex (attrCON attrs) (attrINT attrs)
    (attrWIS attrs) (attrCHA attrs).

(** The total of the six scores. *)
Definition sumScores (attrs : BasicAttributes) : Z :=
  attrSTR attrs + attrDEX attrs + attrCON attrs + attrINT attrs + attrWIS attrs
  + attrCHA attrs.

(** Every score is from 3 to 20. *)
Definition scoresInRange (attrs : BasicAttributes) : Prop :=
  Forall (fun v => 3 <= v <= 20) (attributeValues attrs).

(** The armour class on the sheet is the one [calculateAC] gives. *)
Definition consistentAC (c : CharacterRecord) : Prop :=
  AC (resources (core c)) = calculateAC (basicAttributes (core c)) (armor c).

(** An update that sets the resources sets the armour or the scores as
    well, so that the armour class is recalculated. *)
Definition recalculates (updates : Updates.t) : bool :=
  negb (isSome (Updates.resources updates))
  || isSome (Updates.basicAttributes updates) || isSome (Updates.armor updates).


(** A call that changes the character store. *)
Inductive StoreOp : Type :=
| Create (now : Z) (suffix : string) (data : CharacterCreationData) (user : User)
    (session : string)
| Update (characterId : string) (updates : Updates.t)
| Delete (characterId : string).

Definition applyStoreOp (st : Store) (op : StoreOp) : Store :=
  match op with
  | Create now suffix data user session =>
      snd (createCharacter now suffix data user session st)
  | Update characterId updates => snd (updateCharacter characterId updates st)
  | Delete characterId => deleteCharacter characterId st
  end.

Definition runStoreOps (ops : list StoreOp) (st : Store) : Store :=
  fold_left applyStoreOp ops st.

(** Every update of the call recalculates the armour class. *)
Definition recalculating (op : StoreOp) : bool :=
  match op with
  | Update _ updates => recalculates updates
  | _ => true
  end.

(** Every character is stored under its own id, once. *)
Definition wellKeyed (m : JSMap.Map CharacterRecord) : Prop :=
  NoDup (keys m) /\ forall k c, In (k, c) m -> id c = k.






(** The address every portrait shares, up to the seed. *)
Definition portraitAddress : string :=
  "https://images.unsplash.com/photo-1578662996442-48f60103fc96"
  ++ "?w=400&h=400&fit=crop&crop=face&auto=format&q=80&ixid=".

(** The random values a portrait takes. *)
Definition portraitDraws (ancestry : option string) : nat :=
  match ancestry with
  | Some (String _ _) => 1
  | _ => 2
  end.

(** What the inventory lets the player do to the character shown, and
    the update each action sends. *)
Inductive InventoryAction : Type :=
| Toggle (type : InventoryManager.Wearable) (id' : string)
| ChangeQuantity (id' : string) (delta : Z)
| Remove (type : InventoryManager.ItemKind) (id' : string)
| Add (now : Z) (suffix : string) (item : InventoryManager.NewItem).

Definition actionUpdates (character : CharacterRecord) (action : InventoryAction)
  : Updates.t :=
  match action with
  | Toggle type id' => InventoryManager.handleToggleEquipped character type id'
  | ChangeQuantity id' delta => InventoryManager.handleQuantityChange character id' delta
  | Remove type id' => InventoryManager.handleRemoveItem character type id'
  | Add now suffix item => InventoryManager.handleAddItem character now suffix item
  end.

(** A step of a session: a character is created, or the inventory
    acts on the stored character with the id. *)
Inductive SessionStep : Type :=
| Created (now : Z) (suffix : string) (data : CharacterCreationData) (user : User)
    (session : string)
| Inventory (characterId : string) (action : InventoryAction).

Definition applyStep (st : Store) (step : SessionStep) : Store :=
  match step with
  | Created now suffix data user session =>
      snd (createCharacter now suffix data user session st)
  | Inventory characterId action =>
      match getCharacter characterId st with
      | Some character =>
          snd (InventoryManager.handleCharacterUpdate character
                 (actionUpdates character action) st)
      | None => st
      end
  end.

Definition runSteps (steps : list SessionStep) (st : Store) : Store :=
  fold_left applyStep steps st.

End SheetNotions.

Module MoreSamples.

Import Types DiceService CharacterStore InventoryManager LocalStorage.

(** Two armours, not equipped. *)
Definition leather : Armor := mkArmor "armor-1" "Leather armor" 11 5 1 false.
Definition shield : Armor := mkArmor "armor-2" "Shield" 2 0 1 false.

(** A valid character, with a name to trim and an armour class the
    service will replace. *)
Definition aria : CharacterCreationData :=
  mkCreationData
    (mkCharacterInfo " Aria " "Kim" "Elf" "Rogue" "Sage" "" "portrait")
    (mkBasicAttributes 10 16 12 10 10 10)
    (mkResources 1 8 8 99 0 0 0 false).

Definition kim : User := mkUser "user-1" "Kim" Player.

(** Aria as stored, carrying the two armours, none equipped. *)
Definition ariaStored : CharacterRecord :=
  mkCharacterRecord "char-1-abc" "user-1" "session-1"
    (mkCharacterInfo "Aria" "Kim" "Elf" "Rogue" "Sage" "" "portrait")
    (mkCharacter (mkBasicAttributes 10 16 12 10 10 10)
                 (mkResources 1 8 8 13 0 0 0 false))
    [] [leather; shield] [] [] [].

Definition oneCharacter : Store :=
  mkStore [("char-1-abc", ariaStored)] NoItem true.

(** Scores out of range whose total is out of range as well, and a
    level out of range with HP above the maximum. *)
Definition broken : Data.t :=
  Data.mk (Some "Aria") (Some "Kim") (Some "Elf") (Some "Rogue") (Some "Sage")
    None None
    (Some (mkBasicAttributes 1 1 1 1 1 1))
    (Some (mkResources 0 9 8 10 0 0 0 false)).

(** A roll to save, and the history the service starts with. *)
Definition firstRoll : RollHistory.DiceRoll :=
  RollHistory.mkDiceRoll "roll-1" "session-1" "char-1" "Kim" "1d20" 14 "1d20 = 14"
    1700000000000.

Definition noHistory : RollHistory.State := RollHistory.initialize NoItem true.

End MoreSamples.

(** * Properties *)

(** ** The ability modifier *)

Module CharacterFacts.

Import CharacterService.

(** The floor of the real quotient is the integer floor division. *)
Lemma calculateModifier_div (score : Z) :
  calculateModifier score = (score - 10) / 2.
Proof.
  unfold calculateModifier, JS.Math_floor.
  rewrite Zdiv_Qdiv.
  apply Qfloor_comp.
  unfold Zminus. rewrite inject_Z_plus, inject_Z_opp.
  reflexivity.
Qed.

(** It is the one integer [m] with [2m <= score - 10 < 2m + 2]. *)
Lemma calculateModifier_floor (score : Z) :
  2 * calculateModifier score <= score - 10 < 2 * calculateModifier score + 2.
Proof.
  rewrite calculateModifier_div.
  pose proof (Z.div_mod (score - 10) 2 ltac:(lia)).
  pose proof (Z.mod_pos_bound (score - 10) 2 ltac:(lia)).
  lia.
Qed.

Lemma calculateModifier_unique (score m : Z) :
  2 * m <= score - 10 < 2 * m + 2 -> calculateModifier score = m.
Proof.
  intros Hm. pose proof (calculateModifier_floor score). lia.
Qed.

End CharacterFacts.

(** ** Strings *)

Module StringFacts.

Lemma append_empty_r (s : string) : s ++ "" = s.
Proof. induction s as [|c s IH]; simpl; congruence. Qed.

Lemma append_assoc (a b c : string) : (a ++ b) ++ c = a ++ (b ++ c).
Proof. induction a as [|x a IH]; simpl; congruence. Qed.

Lemma length_append (a b : string) :
  String.length (a ++ b) = (String.length a + String.length b)%nat.
Proof. induction a as [|x a IH]; simpl; congruence. Qed.

Lemma prefix_append (a b : string) : prefix a (a ++ b) = true.
Proof.
  induction a as [|x a IH]; simpl.
  - now destruct b.
  - destruct (ascii_dec x x); [assumption | congruence].
Qed.

End StringFacts.

(** ** The parser *)

Module ParserFacts.

Import JS DiceService Notions StringFacts.

Lemma spanDigits_inv (s : string) :
  s = fst (spanDigits s) ++ snd (spanDigits s)
  /\ allDigits (fst (spanDigits s)) = true
  /\ stopsDigits (snd (spanDigits s)) = true.
Proof.
  induction s as [|c r IH]; simpl.
  - auto.
  - destruct (isDigit c) eqn:Hc.
    + destruct (spanDigits r) as [d rest]; simpl in *.
      destruct IH as (-> & Hd & Hr). rewrite Hc. auto.
    + simpl. rewrite Hc. auto.
Qed.

Lemma spanDigits_app (d r : string) :
  allDigits d = true -> stopsDigits r = true -> spanDigits (d ++ r) = (d, r).
Proof.
  induction d as [|c d IH]; simpl; intros Hd Hr.
  - destruct r as [|c r]; simpl in *; auto.
    destruct (isDigit c); simpl in *; congruence.
  - apply andb_true_iff in Hd as [Hc Hd].
    rewrite Hc, IH; auto.
Qed.

Lemma spanDigits_all (d : string) :
  allDigits d = true -> spanDigits d = (d, EmptyString).
Proof.
  intros Hd. pose proof (spanDigits_app d EmptyString Hd eq_refl) as H.
  now rewrite append_empty_r in H.
Qed.

Lemma isDigit_not_sign (c : ascii) : isDigit c = true -> isSign c = false.
Proof.
  unfold isDigit, isSign. intros H.
  apply andb_true_iff in H as [H1 H2].
  apply N.leb_le in H1.
  apply orb_false_iff; split; apply N.eqb_neq; lia.
Qed.

(** [parseInt] never yields [NaN] on a non-empty digit run ... *)
Lemma parseInt_digits (c : ascii) (d : string) :
  allDigits (String c d) = true ->
  parseInt (String c d) = Some (digitsValue 0 (String c d)).
Proof.
  intros Hd. unfold parseInt.
  pose proof Hd as Hc. simpl in Hc. apply andb_true_iff in Hc as [Hc _].
  apply isDigit_not_sign in Hc. unfold isSign in Hc.
  apply orb_false_iff in Hc as [H43 H45]. rewrite H43, H45.
  rewrite (spanDigits_all _ Hd). reflexivity.
Qed.

(** ... nor on a sign followed by one. *)
Lemma parseInt_signed (sg c : ascii) (d : string) :
  isSign sg = true -> allDigits (String c d) = true ->
  parseInt (String sg (String c d)) =
    Some (if (code sg =? 45)%N then - digitsValue 0 (String c d)
          else digitsValue 0 (String c d)).
Proof.
  intros Hs Hd. unfold parseInt.
  unfold isSign in Hs.
  destruct (code sg =? 45)%N eqn:H45.
  - rewrite (spanDigits_all _ Hd). reflexivity.
  - rewrite orb_false_r in Hs. rewrite Hs.
    rewrite (spanDigits_all _ Hd). reflexivity.
Qed.

Lemma signedNumberToEnd_inv (s g : string) :
  signedNumberToEnd s = Some (Some g) ->
  exists sg c d, g = String sg (String c d) /\ s = g
                 /\ isSign sg = true /\ allDigits (String c d) = true.
Proof.
  destruct s as [|sg r]; simpl; [discriminate|].
  pose proof (spanDigits_inv r) as (Hr & Hd & _).
  destruct (spanDigits r) as [[|c d] [|c' r']]; simpl in *; try discriminate.
  destruct (isSign sg) eqn:Hs; [|discriminate].
  intros [= <-]. rewrite append_empty_r in Hr. subst r.
  exists sg, c, d. auto.
Qed.

(** The captured sides and modifier of the first pattern are numerals:
    their [parseInt] is a number. *)
Lemma basicMatch_numeric (cleaned g1 g2 : string) (g3 : option string) :
  basicMatch cleaned = Some (g1, g2, g3) ->
  parseInt g2 <> None /\ (forall m, g3 = Some m -> parseInt m <> None).
Proof.
  unfold basicMatch.
  destruct (spanDigits cleaned) as [d1 r1].
  destruct r1 as [|c0 r2]; [discriminate|].
  destruct (c0 =? "d")%char; [|discriminate].
  pose proof (spanDigits_inv r2) as (_ & Hd & _).
  destruct (spanDigits r2) as [[|c2 d2] r3]; [discriminate|]. simpl fst in Hd.
  destruct (signedNumberToEnd r3) as [g|] eqn:Hg; [|discriminate].
  intros [= <- <- <-]. split.
  - rewrite parseInt_digits by assumption. discriminate.
  - intros m ->. apply signedNumberToEnd_inv in Hg as (sg & c & d & -> & _ & Hs & Hm).
    rewrite parseInt_signed by assumption. discriminate.
Qed.

Lemma complexMatch_numeric (cleaned g1 g2 : string) (g3 g4 : option string) :
  complexMatch cleaned = Some (g1, g2, g3, g4) ->
  parseInt g2 <> None /\ (forall m, g4 = Some m -> parseInt m <> None).
Proof.
  unfold complexMatch.
  destruct (spanDigits cleaned) as [d1 r1].
  destruct r1 as [|c0 r2]; [discriminate|].
  destruct (c0 =? "d")%char; [|discriminate].
  pose proof (spanDigits_inv r2) as (_ & Hd & _).
  destruct (spanDigits r2) as [[|c2 d2] r3]; [discriminate|]. simpl fst in Hd.
  destruct (attributeGroup r3) as [a r4].
  destruct (signedNumberToEnd r4) as [g|] eqn:Hg; [|discriminate].
  intros [= <- <- <- <-]. split.
  - rewrite parseInt_digits by assumption. discriminate.
  - intros m ->. apply signedNumberToEnd_inv in Hg as (sg & c & d & -> & _ & Hs & Hm).
    rewrite parseInt_signed by assumption. discriminate.
Qed.

Lemma withinBounds_spec (c s : Z) :
  withinBounds c s = true <-> 1 <= c <= 100 /\ 1 <= s <= 1000.
Proof.
  unfold withinBounds.
  rewrite !andb_true_iff, !Z.ltb_lt, !Z.leb_le. lia.
Qed.

Lemma parseBasic_bounds (cleaned : string) (parsed : DiceExpression) :
  parseBasic cleaned = Some parsed ->
  withinBounds (count parsed) (sides parsed) = true.
Proof.
  unfold parseBasic.
  destruct (basicMatch cleaned) as [[[g1 g2] g3]|]; [|discriminate].
  destruct (parseInt g2) as [s|]; [|discriminate].
  destruct (match g3 with Some m => parseInt m | None => Some 0 end); [|discriminate].
  destruct (withinBounds (parseIntOr1 g1) s) eqn:Hb; [|discriminate].
  now intros [= <-].
Qed.

Lemma parseComplex_bounds (cleaned : string) (parsed : DiceExpression) :
  parseComplex cleaned = Some parsed ->
  withinBounds (count parsed) (sides parsed) = true.
Proof.
  unfold parseComplex.
  destruct (complexMatch cleaned) as [[[[g1 g2] g3] g4]|]; [|discriminate].
  destruct (parseInt g2) as [s|]; [|discriminate].
  destruct (match g4 with Some m => parseInt m | None => Some 0 end); [|discriminate].
  destruct (withinBounds (parseIntOr1 g1) s) eqn:Hb; [|discriminate].
  now intros [= <-].
Qed.

(** The invariant of a parsed expression. *)
Lemma parse_bounds (expression : string) (parsed : DiceExpression) :
  parseDiceExpression expression = Some parsed ->
  1 <= count parsed <= 100 /\ 1 <= sides parsed <= 1000.
Proof.
  unfold parseDiceExpression. intros H.
  apply withinBounds_spec.
  destruct (parseBasic _) eqn:Hb.
  - injection H as <-. eapply parseBasic_bounds; eauto.
  - eapply parseComplex_bounds; eauto.
Qed.

Lemma toLowerCase_app (a b : string) :
  toLowerCase (a ++ b) = toLowerCase a ++ toLowerCase b.
Proof. induction a as [|c a IH]; simpl; congruence. Qed.

Lemma prefix_app_stop (w : string) :
  forall q c t, occurs c w = false -> prefix w (q ++ String c t) = prefix w q.
Proof.
  induction w as [|a w IH]; intros q c t Ho; simpl; [now destruct q|].
  simpl in Ho. apply orb_false_iff in Ho as [Hac Ho].
  destruct q as [|b q]; simpl.
  - destruct (ascii_dec a c) as [->|]; [|reflexivity].
    rewrite Ascii.eqb_refl in Hac. discriminate.
  - destruct (ascii_dec a b); [now apply IH | reflexivity].
Qed.

Lemma spaceAt_app_plain (q : string) (c : ascii) (t : string) :
  plainChar c = true -> spaceAt (q ++ String c t) = spaceAt q.
Proof.
  unfold spaceAt, plainChar. generalize whiteSpace as l.
  induction l as [|w l IH]; simpl; intros H; [reflexivity|].
  apply andb_true_iff in H as [Hw Hl]. apply negb_true_iff in Hw.
  rewrite prefix_app_stop by assumption.
  destruct (prefix w q); [reflexivity | now apply IH].
Qed.

Lemma prefix_length (w : string) :
  forall q, prefix w q = true -> (String.length w <= String.length q)%nat.
Proof.
  induction w as [|a w IH]; intros q H; simpl; [lia|].
  destruct q as [|b q]; simpl in *; [discriminate|].
  destruct (ascii_dec a b); [|discriminate].
  apply IH in H. lia.
Qed.

Lemma spaceAt_le (q : string) : (spaceAt q <= String.length q)%nat.
Proof.
  unfold spaceAt.
  destruct (find (fun w => prefix w q) whiteSpace) as [w|] eqn:Hf; [|lia].
  apply find_some in Hf as [_ Hp]. now apply prefix_length.
Qed.

Lemma spaceAt_plain (c : ascii) (t : string) :
  plainChar c = true -> spaceAt (String c t) = O.
Proof.
  intros Hc. change (String c t) with ("" ++ String c t).
  now rewrite spaceAt_app_plain.
Qed.

Lemma dropSpace_plain (t : string) : allPlain t = true -> dropSpace 0 t = t.
Proof.
  induction t as [|c t IH]; intros H; [reflexivity|].
  cbn [allPlain] in H. apply andb_true_iff in H as [Hc Ht].
  cbn [dropSpace]. rewrite (spaceAt_plain c t Hc). now rewrite IH.
Qed.

Lemma dropSpace_app_plain (t : string) :
  allPlain t = true ->
  forall q skip, (skip <= String.length q)%nat ->
    dropSpace skip (q ++ t) = dropSpace skip q ++ t.
Proof.
  intros Ht. destruct t as [|c t].
  { intros q skip _. now rewrite !append_empty_r. }
  pose proof Ht as Hc. cbn [allPlain] in Hc. apply andb_true_iff in Hc as [Hc _].
  induction q as [|x q IH]; intros skip Hk.
  - simpl in Hk. replace skip with O by lia. cbn [append].
    now rewrite dropSpace_plain.
  - destruct skip as [|k].
    + change (String x q ++ String c t) with (String x (q ++ String c t)).
      cbn [dropSpace].
      change (String x (q ++ String c t)) with (String x q ++ String c t).
      rewrite (spaceAt_app_plain (String x q) c t Hc).
      pose proof (spaceAt_le (String x q)) as Hle. simpl in Hle.
      destruct (spaceAt (String x q)) as [|k].
      * cbn [append]. now rewrite IH by lia.
      * apply IH. lia.
    + cbn [append dropSpace]. apply IH. simpl in Hk. lia.
Qed.

Lemma removeWhiteSpace_app_plain (q t : string) :
  allPlain t = true -> removeWhiteSpace (q ++ t) = removeWhiteSpace q ++ t.
Proof.
  intros Ht. unfold removeWhiteSpace. apply dropSpace_app_plain; [assumption|lia].
Qed.

(** A digit run stops where a text that starts with no digit is put. *)
Lemma spanDigits_app_stop (x t : string) :
  stopsDigits t = true ->
  spanDigits (x ++ t) = (fst (spanDigits x), snd (spanDigits x) ++ t).
Proof.
  intros Ht. induction x as [|c x IH]; cbn [append spanDigits].
  - destruct t as [|c t]; [reflexivity|]. cbn [spanDigits].
    simpl in Ht. destruct (isDigit c); [discriminate | reflexivity].
  - destruct (isDigit c); [|reflexivity].
    rewrite IH. now destruct (spanDigits x).
Qed.

Lemma endsNonDigit_app (y t : string) :
  endsNonDigit t = true -> endsNonDigit (y ++ t) = true.
Proof.
  intros Ht. induction y as [|c y IH]; [assumption|].
  cbn [append endsNonDigit]. rewrite IH.
  destruct (y ++ t) eqn:E; [|reflexivity].
  destruct y; [|discriminate]. simpl in E. subst t. discriminate.
Qed.

Lemma allDigits_ends (s : string) :
  allDigits s = true -> endsNonDigit s = false.
Proof.
  induction s as [|c s IH]; [reflexivity|].
  cbn [allDigits endsNonDigit]. intros H.
  apply andb_true_iff in H as [Hc Hs].
  destruct s; [now rewrite Hc | now apply IH].
Qed.

(** The signed number must reach the end: it does not when the text
    ends with something else than a digit. *)
Lemma signedNumberToEnd_letters (s : string) :
  endsNonDigit s = true -> signedNumberToEnd s = None.
Proof.
  intros He.
  destruct (signedNumberToEnd s) as [[g|]|] eqn:Hs; [| |reflexivity].
  - apply signedNumberToEnd_inv in Hs as (sg & c & d & -> & -> & _ & Hd).
    apply allDigits_ends in Hd.
    cbn [endsNonDigit] in He. cbn [endsNonDigit] in Hd. congruence.
  - destruct s as [|c r]; [discriminate|].
    simpl in Hs. destruct (spanDigits r) as [[|] [|]]; try discriminate.
    destruct (isSign c); discriminate.
Qed.

Lemma attributeGroup_rest (s : string) :
  (5 <= String.length s)%nat -> endsNonDigit s = true ->
  endsNonDigit (snd (attributeGroup s)) = true.
Proof.
  intros Hl He. unfold attributeGroup.
  destruct s as [|c [|x [|y [|z rest]]]]; try assumption.
  destruct (isSign c && isAttributeToken (String x (String y (String z ""))));
    [|assumption].
  cbn [snd]. destruct rest as [|u rest]; [simpl in Hl; lia|].
  exact He.
Qed.

Lemma basicMatch_attribute_tail (x : string) (negative : bool) (a : Attribute) :
  basicMatch (x ++ String (signChar negative) (attributeToken a)) = None.
Proof.
  unfold basicMatch.
  rewrite spanDigits_app_stop by (now destruct negative).
  destruct (spanDigits x) as [g1 r1]. cbn [fst snd].
  destruct r1 as [|c r2]; [now destruct negative|].
  cbn [append]. destruct (c =? "d")%char; [|reflexivity].
  rewrite spanDigits_app_stop by (now destruct negative).
  destruct (spanDigits r2) as [[|c2 g2] r3]; [reflexivity|]. cbn [fst snd].
  rewrite signedNumberToEnd_letters; [reflexivity|].
  apply endsNonDigit_app. now destruct negative, a.
Qed.

Lemma complexMatch_attribute_tail (x : string) (negative : bool) (a : Attribute) :
  complexMatch (x ++ String (signChar negative) (attributeToken a)) =
    match dieSpec x with
    | Some (g1, g2) =>
        Some (g1, g2, Some (String (signChar negative) (attributeToken a)), None)
    | None => None
    end.
Proof.
  unfold complexMatch, dieSpec.
  rewrite spanDigits_app_stop by (now destruct negative).
  destruct (spanDigits x) as [g1 r1]. cbn [fst snd].
  destruct r1 as [|c r2]; [now destruct negative|].
  cbn [append]. destruct (c =? "d")%char; [|reflexivity].
  rewrite spanDigits_app_stop by (now destruct negative).
  destruct (spanDigits r2) as [[|c2 g2] r3]; [reflexivity|]. cbn [fst snd].
  destruct r3 as [|c3 r4].
  - now destruct negative, a.
  - pose proof (attributeGroup_rest
                  (String c3 r4 ++ String (signChar negative) (attributeToken a))) as Hr.
    destruct (attributeGroup _) as [g3 r5]. cbn [snd] in Hr.
    rewrite signedNumberToEnd_letters; [reflexivity|].
    apply Hr.
    + cbn [append String.length]. rewrite length_append.
      destruct a; simpl; lia.
    + apply endsNonDigit_app. now destruct negative, a.
Qed.

Lemma attributeOfMatch_token (sg : ascii) (a : Attribute) :
  attributeOfMatch (String sg (attributeToken a)) = Some a.
Proof. now destruct a. Qed.

(** What the parser makes of a text that ends with a signed attribute
    token: neither the first pattern nor the sign has a say. *)
Lemma parse_attribute_tail (p : string) (negative : bool) (a : Attribute) :
  parseDiceExpression (p ++ String (signChar negative) (attributeToken a)) =
    match dieSpec (removeWhiteSpace (toLowerCase p)) with
    | Some (g1, g2) =>
        match parseInt g2 with
        | Some sides =>
            if withinBounds (parseIntOr1 g1) sides
            then Some (mkDiceExpression (parseIntOr1 g1) sides 0 (Some a))
            else None
        | None => None
        end
    | None => None
    end.
Proof.
  unfold parseDiceExpression.
  rewrite toLowerCase_app.
  replace (toLowerCase (String (signChar negative) (attributeToken a)))
    with (String (signChar negative) (attributeToken a)) by (now destruct negative, a).
  rewrite removeWhiteSpace_app_plain by (now destruct negative, a).
  unfold parseBasic, parseComplex.
  rewrite basicMatch_attribute_tail, complexMatch_attribute_tail.
  destruct (dieSpec _) as [[g1 g2]|]; [|reflexivity].
  rewrite attributeOfMatch_token. reflexivity.
Qed.

(** *** Decimal texts *)

Lemma digitsValue_acc (d : Decimal.uint) :
  forall acc : positive,
    digitsValue (Z.pos acc) (NilEmpty.string_of_uint d) = Z.pos (Pos.of_uint_acc d acc).
Proof.
  induction d; intros acc; cbn [NilEmpty.string_of_uint digitsValue Pos.of_uint_acc];
    try reflexivity; rewrite <- IHd; f_equal;
    unfold digitValue, code; simpl N_of_ascii; lia.
Qed.

Lemma digitsValue_uint (d : Decimal.uint) :
  digitsValue 0 (NilEmpty.string_of_uint d) = Z.of_N (Pos.of_uint d).
Proof.
  induction d; cbn [NilEmpty.string_of_uint digitsValue Pos.of_uint Z.of_N];
    try reflexivity; try assumption;
    rewrite <- digitsValue_acc; reflexivity.
Qed.

Lemma allDigits_uint (d : Decimal.uint) :
  allDigits (NilEmpty.string_of_uint d) = true.
Proof. induction d; cbn [NilEmpty.string_of_uint allDigits]; try reflexivity; assumption. Qed.

(** The decimal text of a natural number: digits, at least one, whose
    value is the number. *)
Lemma toString_nonneg (n : Z) :
  0 <= n ->
  exists c d, toString n = String c d
              /\ allDigits (String c d) = true
              /\ digitsValue 0 (String c d) = n.
Proof.
  intros Hn. unfold toString.
  destruct n as [|p|p]; [| |lia].
  - exists "0"%char, EmptyString. repeat split.
  - cbn [Z.to_int NilZero.string_of_int].
    pose proof (DecimalPos.Unsigned.of_to p) as Hp.
    pose proof (digitsValue_uint (Pos.to_uint p)) as Hv.
    pose proof (allDigits_uint (Pos.to_uint p)) as Hd.
    rewrite Hp in Hv. cbn [Z.of_N] in Hv.
    unfold NilZero.string_of_uint.
    destruct (Pos.to_uint p) eqn:E; [discriminate Hp| ..];
      match goal with
      | |- context [NilEmpty.string_of_uint ?u] =>
          destruct (NilEmpty.string_of_uint u) as [|c d] eqn:Es;
            [discriminate Es | exists c, d; auto]
      end.
Qed.

Lemma toString_negative (p : positive) :
  toString (Z.neg p) = String "-" (toString (Z.pos p)).
Proof. reflexivity. Qed.

Lemma isDigit_cases (c : ascii) :
  isDigit c = true -> plainChar c = true /\ lowerChar c = c.
Proof.
  destruct c as [[] [] [] [] [] [] [] []]; intros H;
    try discriminate H; split; reflexivity.
Qed.

Lemma digits_plain (s : string) :
  allDigits s = true -> allPlain s = true /\ toLowerCase s = s.
Proof.
  induction s as [|c s IH]; [now split|].
  cbn [allDigits allPlain toLowerCase]. intros H.
  apply andb_true_iff in H as [Hc Hs].
  destruct (isDigit_cases c Hc) as [-> ->].
  destruct (IH Hs) as [-> ->]. now split.
Qed.



(** C1, the code at the listed inputs: a count written [0] is falsy, so
    [parseInt(...) || 1] makes it [1] before the bounds are looked at
    and ["0d6"] parses as one six-sided die; the four other inputs
    fail. *)
Theorem parse_listed_inputs :
  parseDiceExpression "0d6" = Some (mkDiceExpression 1 6 0 None)
  /\ parseDiceExpression "101d6" = None
  /\ parseDiceExpression "1d0" = None
  /\ parseDiceExpression "1d1001" = None
  /\ parseDiceExpression "abc" = None.
Proof.
  repeat split; vm_compute; reflexivity.
Qed.

End ParserFacts.

(** ** The evaluator *)

Module EvaluatorFacts.

Import JS DiceService Notions StringFacts ParserFacts.


Section WithRuntime.

Variable rt : Runtime.

Lemma rollDie_run (sides : Z) (k : nat) :
  rollDie rt sides k = (Return (face rt sides k), S k).
Proof. reflexivity. Qed.

Lemma normalRolls_run (n : nat) (sides : Z) :
  forall (acc : list RollEntry) (total : Z) (k : nat),
    normalRolls rt n sides acc total k =
      (Return ((acc ++ map (rollEntry sides) (map (face rt sides) (seq k n)))%list,
               total + sumZ (map (face rt sides) (seq k n))),
       (k + n)%nat).
Proof.
  induction n as [|n IH]; intros acc total k; simpl.
  - unfold ret. rewrite app_nil_r, Nat.add_0_r, Z.add_0_r. reflexivity.
  - unfold bind at 1. rewrite rollDie_run, IH.
    rewrite <- app_assoc. simpl.
    f_equal; [f_equal; f_equal; lia | lia].
Qed.

Ltac close_run :=
  simpl; rewrite ?app_nil_r; f_equal; try lia; f_equal; f_equal; lia.

(** What [evaluate] returns, in closed form. *)
Lemma evaluate_run (request : RollRequest) (parsed : DiceExpression) (k : nat) :
  evaluate rt request parsed k =
    (Return
       (mkDiceResult (expression request)
          (map (rollEntry (sides parsed)) (keptResults rt request parsed k))
          (appliedModifiers request parsed)
          (sumZ (keptResults rt request parsed k)
           + sumZ (map value (appliedModifiers request parsed)))
          (buildDetails (hasAdvantage request parsed) (hasDisadvantage request parsed)
             parsed
             (map (rollEntry (sides parsed)) (keptResults rt request parsed k))
             (appliedModifiers request parsed))
          (now rt)),
     (k + drawsUsed request parsed)%nat).
Proof.
  unfold evaluate, keptResults, drawsUsed, advantageMode, appliedModifiers,
    numericEntry, attributeEntry, luckEntry.
  destruct (hasAdvantage request parsed); simpl orb; cbv iota.
  - unfold bind, rollWithAdvantage, bind. rewrite !rollDie_run. unfold ret.
    destruct (modifier parsed =? 0), (attributeBonus parsed) as [a|],
      (character request) as [c|]; try destruct (luck (resources c));
      close_run.
  - destruct (hasDisadvantage request parsed); cbv iota.
    + unfold bind, rollWithDisadvantage, bind. rewrite !rollDie_run. unfold ret.
      destruct (modifier parsed =? 0), (attributeBonus parsed) as [a|],
        (character request) as [c|]; try destruct (luck (resources c));
        close_run.
    + unfold bind. rewrite normalRolls_run. unfold ret.
      destruct (modifier parsed =? 0), (attributeBonus parsed) as [a|],
        (character request) as [c|]; try destruct (luck (resources c));
        close_run.
Qed.

Lemma rollDice_run (request : RollRequest) (k : nat) :
  rollDice rt request k =
    match parseDiceExpression (expression request) with
    | None => (Throw InvalidExpression, k)
    | Some parsed => evaluate rt request parsed k
    end.
Proof.
  unfold rollDice. now destruct (parseDiceExpression (expression request)).
Qed.




End WithRuntime.

End EvaluatorFacts.

(** ** Properties of rollDice *)

Module RollFacts.

Import JS DiceService Notions Samples StringFacts ParserFacts EvaluatorFacts.

Lemma advantageMode_spec (request : RollRequest) (parsed : DiceExpression) :
  advantageMode request parsed = true <->
  sides parsed = 20 /\ count parsed = 1
  /\ (advantage request = Some true \/ disadvantage request = Some true).
Proof.
  unfold advantageMode, hasAdvantage, hasDisadvantage, truthy.
  rewrite orb_true_iff, !andb_true_iff, !Z.eqb_eq.
  destruct (advantage request) as [[]|], (disadvantage request) as [[]|];
    intuition congruence.
Qed.

(** C3: the mode is on exactly for one d20 with a flag requested; then
    [rolls] holds one entry, the larger of two consecutive draws when
    advantage is requested and the smaller otherwise; with the mode off
    [count] dice are rolled in order, one entry each; and for any other
    sides or count the flags change nothing of what [rollDice] does. *)
Theorem advantage_mode_exact (rt : Runtime) (request : RollRequest)
    (parsed : DiceExpression) (k : nat) :
  parseDiceExpression (expression request) = Some parsed ->
  (advantageMode request parsed = true <->
     sides parsed = 20 /\ count parsed = 1
     /\ (advantage request = Some true \/ disadvantage request = Some true))
  /\ (advantageMode request parsed = true ->
      exists res,
        rollDice rt request k = (Return res, (k + 2)%nat)
        /\ rolls res =
             [rollEntry 20
                (if truthy (advantage request)
                 then Z.max (face rt 20 k) (face rt 20 (S k))
                 else Z.min (face rt 20 k) (face rt 20 (S k)))])
  /\ (advantageMode request parsed = false ->
      exists res,
        rollDice rt request k = (Return res, (k + Z.to_nat (count parsed))%nat)
        /\ rolls res =
             map (fun i => rollEntry (sides parsed) (face rt (sides parsed) i))
                 (seq k (Z.to_nat (count parsed)))
        /\ Z.of_nat (length (rolls res)) = count parsed)
  /\ (sides parsed <> 20 \/ count parsed <> 1 ->
      forall adv dis,
        rollDice rt (withFlags request adv dis) k = rollDice rt request k).
Proof.
  intros Hp. split; [apply advantageMode_spec|].
  pose proof (parse_bounds _ _ Hp) as [Hc _].
  rewrite rollDice_run, Hp, evaluate_run. unfold drawsUsed, keptResults.
  split; [|split].
  - intros Hm. pose proof Hm as Hm'.
    apply advantageMode_spec in Hm' as (Hs & _ & _).
    rewrite Hm. eexists; split; [reflexivity|]. simpl rolls.
    unfold advantageMode in Hm. rewrite Hs.
    destruct (hasAdvantage request parsed) eqn:Ha.
    + unfold hasAdvantage in Ha. rewrite !andb_true_iff in Ha.
      destruct Ha as [[-> _] _]. reflexivity.
    + simpl in Hm. rewrite Hm.
      unfold hasAdvantage, hasDisadvantage in Ha, Hm.
      rewrite !andb_true_iff in Hm. destruct Hm as [[_ H20] H1].
      rewrite H20, H1, !andb_true_r in Ha. rewrite Ha. reflexivity.
  - intros Hm. rewrite Hm. unfold advantageMode in Hm.
    apply orb_false_iff in Hm as [-> ->].
    eexists; split; [reflexivity|]. simpl rolls. rewrite map_map.
    split; [reflexivity|].
    rewrite !length_map, length_seq. lia.
  - intros Hne adv dis.
    rewrite rollDice_run. simpl expression. rewrite Hp, evaluate_run.
    assert (Hoff : (sides parsed =? 20) && (count parsed =? 1) = false).
    { apply andb_false_iff. rewrite !Z.eqb_neq. exact Hne. }
    assert (Hflag : forall r, hasAdvantage r parsed = false
                              /\ hasDisadvantage r parsed = false).
    { intros r. unfold hasAdvantage, hasDisadvantage.
      rewrite <- !andb_assoc, Hoff, !andb_false_r. auto. }
    unfold drawsUsed, keptResults, advantageMode.
    destruct (Hflag request) as [-> ->].
    destruct (Hflag (withFlags request adv dis)) as [-> ->].
    reflexivity.
Qed.

Lemma advantage_mode_exact_witness :
  parseDiceExpression (expression (withAdvantage "1d20")) = Some (mkDiceExpression 1 20 0 None)
  /\ exists res,
       rollDice alternating (withAdvantage "1d20") 0%nat = (Return res, 2%nat)
       /\ rolls res = [rollEntry 20 14].
Proof.
  split; [reflexivity|].
  destruct (advantage_mode_exact alternating (withAdvantage "1d20")
              (mkDiceExpression 1 20 0 None) 0%nat eq_refl) as (_ & Hon & _).
  destruct (Hon eq_refl) as (res & Hrun & Hrolls).
  exists res. split; [exact Hrun | exact Hrolls].
Defined.





(** C6: the ability modifier is the floor of (score - 10) / 2, which
    rounds towards minus infinity and so differs from truncation; the
    listed scores give the listed modifiers; and the modifiers of a
    result hold an attribute entry, with that value, exactly when the
    expression named an attribute and the request carries a character. *)
Theorem ability_modifier_floor :
  (forall score,
      CharacterService.calculateModifier score = (score - 10) / 2
      /\ 2 * CharacterService.calculateModifier score <= score - 10
           < 2 * CharacterService.calculateModifier score + 2)
  /\ map CharacterService.calculateModifier [10; 11; 12; 8; 7; 20; 3]
       = [0; 0; 1; -1; -2; 5; -4]
  /\ CharacterService.calculateModifier 7 <> Z.quot (7 - 10) 2
  /\ (forall rt request parsed k k' res,
        parseDiceExpression (expression request) = Some parsed ->
        rollDice rt request k = (Return res, k') ->
        filter isAttributeBonus (modifiers res) =
          match attributeBonus parsed, character request with
          | Some attr, Some c =>
              [mkModifierEntry (attributeName attr ++ " Bonus")
                 ((attributeScore (basicAttributes c) attr - 10) / 2)]
          | _, _ => []
          end).
Proof.
  split; [|split; [|split]].
  - intros score. split.
    + apply CharacterFacts.calculateModifier_div.
    + apply CharacterFacts.calculateModifier_floor.
  - reflexivity.
  - discriminate.
  - intros rt request parsed k k' res Hp.
    rewrite rollDice_run, Hp, evaluate_run. intros [= <- _]. simpl modifiers.
    unfold appliedModifiers, numericEntry, attributeEntry, luckEntry.
    destruct (modifier parsed =? 0), (attributeBonus parsed) as [[]|],
      (character request) as [c|]; try destruct (luck (resources c));
      rewrite <- ?CharacterFacts.calculateModifier_div; reflexivity.
Qed.

Lemma ability_modifier_floor_witness :
  exists res,
    rollDice alternating (asFighter "1d20-con+2") 0%nat = (Return res, 1%nat)
    /\ filter isAttributeBonus (modifiers res) = [mkModifierEntry "CON Bonus" (-2)].
Proof.
  destruct ability_modifier_floor as (_ & _ & _ & Hentry).
  eexists. split; [reflexivity|].
  apply (Hentry alternating (asFighter "1d20-con+2")
           (mkDiceExpression 1 20 2 (Some CON)) 0%nat 1%nat); reflexivity.
Defined.



Lemma appendModifier_append (a b : string) (m : ModifierEntry) :
  appendModifier (a ++ b) m = a ++ appendModifier b m.
Proof. unfold appendModifier. now rewrite append_assoc. Qed.

Lemma fold_appendModifier_append (ms : list ModifierEntry) :
  forall a b,
    fold_left appendModifier ms (a ++ b) = a ++ fold_left appendModifier ms b.
Proof.
  induction ms as [|m ms IH]; intros a b; simpl.
  - reflexivity.
  - now rewrite appendModifier_append, IH.
Qed.

(** The tag is put in front of the trace an untagged roll would get. *)
Lemma buildDetails_advantage (d : bool) (parsed : DiceExpression)
    (rs : list RollEntry) (ms : list ModifierEntry) :
  buildDetails true d parsed rs ms =
    "(Advantage) " ++ buildDetails false false parsed rs ms.
Proof.
  unfold buildDetails.
  rewrite <- fold_appendModifier_append.
  f_equal. destruct rs as [|r [|r' rs]]; reflexivity.
Qed.

(** C10: one d20 with both flags set is rolled as with advantage alone:
    the entry kept is the larger of the two draws, whatever the
    disadvantage flag says, and the trace starts with the advantage
    tag. *)
Theorem both_flags_is_advantage (rt : Runtime) (request : RollRequest)
    (parsed : DiceExpression) (k : nat) :
  parseDiceExpression (expression request) = Some parsed ->
  sides parsed = 20 -> count parsed = 1 ->
  advantage request = Some true -> disadvantage request = Some true ->
  exists res,
    rollDice rt request k = (Return res, (k + 2)%nat)
    /\ rolls res = [rollEntry 20 (Z.max (face rt 20 k) (face rt 20 (S k)))]
    /\ details res =
         "(Advantage) " ++ buildDetails false false parsed (rolls res) (modifiers res)
    /\ prefix "(Advantage) " (details res) = true
    /\ forall dis, rollDice rt (withFlags request (Some true) dis) k
                   = (Return res, (k + 2)%nat).
Proof.
  intros Hp Hs Hc Ha Hd.
  assert (Hadv : forall dis, hasAdvantage (withFlags request (Some true) dis) parsed = true).
  { intros dis. unfold hasAdvantage. simpl. now rewrite Hs, Hc. }
  assert (Hadv' : hasAdvantage request parsed = true).
  { unfold hasAdvantage. now rewrite Ha, Hs, Hc. }
  assert (Hdis : hasDisadvantage request parsed = true).
  { unfold hasDisadvantage. now rewrite Hd, Hs, Hc. }
  rewrite rollDice_run, Hp, evaluate_run.
  unfold drawsUsed, advantageMode, keptResults. rewrite Hadv', Hdis. simpl orb. cbv iota.
  eexists. split; [reflexivity|]. simpl rolls. simpl modifiers. simpl details.
  rewrite Hs. split; [reflexivity|].
  split; [apply buildDetails_advantage|].
  split; [rewrite buildDetails_advantage; apply prefix_append|].
  intros dis. rewrite rollDice_run. simpl expression. rewrite Hp, evaluate_run.
  unfold drawsUsed, advantageMode, keptResults. rewrite (Hadv dis). simpl orb. cbv iota.
  rewrite Hs, !buildDetails_advantage. reflexivity.
Qed.

Lemma both_flags_is_advantage_witness :
  exists res,
    rollDice alternating (withBoth "d20+1") 0%nat = (Return res, 2%nat)
    /\ rolls res = [rollEntry 20 14]
    /\ details res = "(Advantage) 1d20 → 14 +1 (Modifier)".
Proof.
  destruct (both_flags_is_advantage alternating (withBoth "d20+1")
              (mkDiceExpression 1 20 1 None) 0%nat
              eq_refl eq_refl eq_refl eq_refl eq_refl)
    as (res & Hrun & Hrolls & Hdetails & _).
  exists res. split; [exact Hrun|]. split; [exact Hrolls|].
  rewrite Hdetails.
  injection Hrun as <-. reflexivity.
Defined.

(** C2, the code on an advantage roll whose two draws are 14 and 7: the
    helper builds the text of the pair, and the trace of the result
    holds the kept roll only.  With the draws in the other order, 7 and
    14, the helper's text changes and the trace does not. *)
Theorem advantage_trace_keeps_one_value :
  rollWithAdvantage alternating 20 0%nat = (Return (14, "(14, 7)"), 2%nat)
  /\ rollWithAdvantage alternating 20 1%nat = (Return (14, "(7, 14)"), 3%nat)
  /\ (exists res,
        rollDice alternating (withAdvantage "1d20") 0%nat = (Return res, 2%nat)
        /\ rolls res = [mkRollEntry 20 14 false false]
        /\ details res = "(Advantage) 1d20 → 14")
  /\ (exists res,
        rollDice alternating (withAdvantage "1d20") 1%nat = (Return res, 3%nat)
        /\ rolls res = [mkRollEntry 20 14 false false]
        /\ details res = "(Advantage) 1d20 → 14").
Proof.
  split; [reflexivity|]. split; [reflexivity|].
  split; eexists; (split; [reflexivity|]); split; reflexivity.
Qed.

(** C8: a minus in front of the attribute token does what a plus does.
    The two texts parse to the same thing, failure included; when they
    parse, the expression carries the attribute; and a roll of the
    minus text for a character adds the ability modifier, unnegated. *)
Theorem attribute_sign_discarded (count sides : string) (a : Attribute) :
  parseDiceExpression (count ++ "d" ++ sides ++ "-" ++ attributeToken a)
    = parseDiceExpression (count ++ "d" ++ sides ++ "+" ++ attributeToken a)
  /\ (forall parsed,
        parseDiceExpression (count ++ "d" ++ sides ++ "+" ++ attributeToken a)
          = Some parsed ->
        attributeBonus parsed = Some a
        /\ parseDiceExpression (count ++ "d" ++ sides ++ "-" ++ attributeToken a)
             = Some parsed)
  /\ (forall rt c adv dis desc k k' res,
        rollDice rt
          (mkRollRequest (count ++ "d" ++ sides ++ "-" ++ attributeToken a)
             (Some c) adv dis desc) k = (Return res, k') ->
        In (mkModifierEntry (attributeName a ++ " Bonus")
              (CharacterService.calculateModifier
                 (attributeScore (basicAttributes c) a)))
           (modifiers res)).
Proof.
  assert (Hshape : forall negative,
            count ++ "d" ++ sides ++ String (signChar negative) (attributeToken a)
            = (count ++ "d" ++ sides) ++ String (signChar negative) (attributeToken a)).
  { intros negative. now rewrite !append_assoc. }
  pose proof (Hshape true) as Hm. pose proof (Hshape false) as Hp.
  cbn [signChar] in Hm, Hp.
  change ("-" ++ attributeToken a) with (String "-" (attributeToken a)).
  change ("+" ++ attributeToken a) with (String "+" (attributeToken a)).
  rewrite Hm, Hp.
  assert (Hattr : forall negative parsed,
            parseDiceExpression
              ((count ++ "d" ++ sides) ++ String (signChar negative) (attributeToken a))
              = Some parsed -> attributeBonus parsed = Some a).
  { intros negative parsed. rewrite parse_attribute_tail.
    destruct (dieSpec _) as [[g1 g2]|]; [|discriminate].
    destruct (parseInt g2) as [s|]; [|discriminate].
    destruct (withinBounds _ s); [|discriminate].
    now intros [= <-]. }
  assert (Heq : parseDiceExpression ((count ++ "d" ++ sides) ++ String "-" (attributeToken a))
                = parseDiceExpression ((count ++ "d" ++ sides) ++ String "+" (attributeToken a))).
  { now rewrite (parse_attribute_tail _ true a), (parse_attribute_tail _ false a). }
  split; [exact Heq|]. split.
  - intros parsed H. split; [exact (Hattr false parsed H) | now rewrite Heq].
  - intros rt c adv dis desc k k' res.
    rewrite rollDice_run. cbn [expression].
    destruct (parseDiceExpression _) as [parsed|] eqn:Hparse; [|discriminate].
    apply (Hattr true) in Hparse.
    rewrite evaluate_run. intros [= <- _]. cbn [modifiers].
    unfold appliedModifiers, attributeEntry. cbn [character]. rewrite Hparse.
    apply in_or_app. right. apply in_or_app. left. now left.
Qed.

Lemma attribute_sign_discarded_witness :
  parseDiceExpression "2d20+str" = Some (mkDiceExpression 2 20 0 (Some STR))
  /\ parseDiceExpression "2d20-str" = Some (mkDiceExpression 2 20 0 (Some STR)).
Proof.
  destruct (attribute_sign_discarded "2" "20" STR) as (_ & Hsame & _).
  split; [reflexivity|].
  apply (Hsame (mkDiceExpression 2 20 0 (Some STR))). reflexivity.
Defined.

End RollFacts.

(** ** The catalogue of common rolls *)

Module CatalogueFacts.

Import JS DiceService Notions ParserFacts.


End CatalogueFacts.

(** * Further properties *)

(** ** The parser *)

Module PrinterFacts.

Import JS DiceService Notions TextNotions Samples StringFacts ParserFacts.

Lemma lowerChar_idem (c : ascii) : lowerChar (lowerChar c) = lowerChar c.
Proof. destruct c as [[] [] [] [] [] [] [] []]; reflexivity. Qed.

Lemma toLowerCase_idem (s : string) : toLowerCase (toLowerCase s) = toLowerCase s.
Proof. induction s as [|c s IH]; simpl; [reflexivity|]. now rewrite lowerChar_idem, IH. Qed.

Lemma parse_toLowerCase (e : string) :
  parseDiceExpression (toLowerCase e) = parseDiceExpression e.
Proof. unfold parseDiceExpression. now rewrite toLowerCase_idem. Qed.


Lemma allDigits_app (a b : string) : allDigits (a ++ b) = allDigits a && allDigits b.
Proof. induction a as [|c a IH]; simpl; [reflexivity|]. now rewrite IH, andb_assoc. Qed.





Lemma signedText_shape (m : Z) :
  m <> 0 ->
  exists c d,
    signedText m = String (signChar (m <? 0)) (String c d)
    /\ allDigits (String c d) = true
    /\ digitsValue 0 (String c d) = Z.abs m.
Proof.
  intros Hm. unfold signedText. rewrite Z.geb_leb.
  destruct (toString_nonneg (Z.abs m) (Z.abs_nonneg m)) as (c & d & Ht & Hd & Hv).
  exists c, d. destruct m as [|p|p]; [contradiction| |]; cbn [Z.abs] in *.
  - cbn [Z.leb Z.compare Z.ltb signChar]. rewrite Ht. auto.
  - cbn [Z.leb Z.compare Z.ltb signChar]. rewrite toString_negative, Ht. auto.
Qed.





Lemma signChar_plain (b : bool) :
  plainChar (signChar b) = true /\ lowerChar (signChar b) = signChar b.
Proof. now destruct b. Qed.







Lemma dropSpace_plain_head (c : ascii) (r : string) :
  plainChar c = true -> dropSpace 0 (String c r) = String c (dropSpace 0 r).
Proof. intros Hc. cbn [dropSpace]. now rewrite (spaceAt_plain c r Hc). Qed.

(** X2: an absent count is a count of one: a text that starts with [d]
    or [D] parses as the same text with [1] in front. *)
Theorem absent_count_is_one (rest : string) :
  parseDiceExpression ("d" ++ rest) = parseDiceExpression ("1d" ++ rest)
  /\ parseDiceExpression ("D" ++ rest) = parseDiceExpression ("1d" ++ rest).
Proof.
  assert (H : forall z,
             (match parseBasic (String "d" z) with
              | Some p => Some p
              | None => parseComplex (String "d" z)
              end)
             = match parseBasic (String "1" (String "d" z)) with
               | Some p => Some p
               | None => parseComplex (String "1" (String "d" z))
               end).
  { intros z. unfold parseBasic, parseComplex, basicMatch, complexMatch.
    change (spanDigits (String "1" (String "d" z))) with ("1", String "d" z).
    change (spanDigits (String "d" z)) with ("", String "d" z).
    cbn [Ascii.eqb Bool.eqb].
    destruct (spanDigits z) as [[|c2 g2] r3]; [reflexivity|].
    destruct (signedNumberToEnd r3) as [g3|];
      destruct (attributeGroup r3) as [a r4];
      destruct (signedNumberToEnd r4) as [g4|]; reflexivity. }
  unfold parseDiceExpression, removeWhiteSpace.
  cbn [append toLowerCase].
  change (lowerChar "1") with "1"%char.
  change (lowerChar "d") with "d"%char.
  change (lowerChar "D") with "d"%char.
  rewrite !dropSpace_plain_head by reflexivity.
  split; apply H.
Qed.


Lemma spaceAt_ascii (c : ascii) (r : string) :
  (code c <? 128)%N = true ->
  spaceAt (String c r) = if isAsciiSpace c then 1%nat else 0%nat.
Proof.
  destruct c as [[] [] [] [] [] [] [] []]; intros H; try discriminate H;
    destruct r; reflexivity.
Qed.

Lemma lowerChar_ascii (c : ascii) :
  (code c <? 128)%N = true -> (code (lowerChar c) <? 128)%N = true.
Proof. destruct c as [[] [] [] [] [] [] [] []]; intros H; try discriminate H; reflexivity. Qed.

Lemma toLowerCase_ascii (a : string) : isAscii a = true -> isAscii (toLowerCase a) = true.
Proof.
  induction a as [|c a IH]; [reflexivity|]. cbn [isAscii toLowerCase]. intros H.
  apply andb_true_iff in H as [Hc Ha].
  now rewrite (lowerChar_ascii c Hc), IH.
Qed.

(** On ASCII text white-space removal goes byte by byte. *)
Lemma dropSpace_ascii_app (a x : string) :
  isAscii a = true -> dropSpace 0 (a ++ x) = dropSpace 0 a ++ dropSpace 0 x.
Proof.
  induction a as [|c a IH]; [reflexivity|]. cbn [isAscii]. intros H.
  apply andb_true_iff in H as [Hc Ha].
  cbn [append dropSpace]. rewrite !spaceAt_ascii by assumption.
  destruct (isAsciiSpace c); [now apply IH|].
  cbn [append]. now rewrite IH.
Qed.

Lemma dropSpace_whiteSpace (w x : string) :
  In w whiteSpace -> dropSpace 0 (w ++ x) = dropSpace 0 x /\ toLowerCase w = w.
Proof.
  intros Hw. unfold whiteSpace in Hw. cbn [map bytes] in Hw.
  repeat (destruct Hw as [<-|Hw]; [destruct x; split; reflexivity|]).
  destruct Hw.
Qed.

(** X3: letter case and white space do not matter.  Putting any
    white-space character of the class [\s] after an ASCII prefix, or
    lower-casing the text, leaves the result of the parser as it is. *)
Theorem parse_ignores_space_and_case (a w b : string) :
  isAscii a = true -> In w whiteSpace ->
  parseDiceExpression (a ++ w ++ b) = parseDiceExpression (a ++ b)
  /\ parseDiceExpression (toLowerCase (a ++ b)) = parseDiceExpression (a ++ b).
Proof.
  intros Ha Hw. split; [|apply parse_toLowerCase].
  unfold parseDiceExpression, removeWhiteSpace.
  rewrite !toLowerCase_app.
  pose proof (toLowerCase_ascii a Ha) as Hla.
  rewrite (dropSpace_ascii_app _ (toLowerCase w ++ toLowerCase b) Hla).
  rewrite (dropSpace_ascii_app _ (toLowerCase b) Hla).
  destruct (dropSpace_whiteSpace w (toLowerCase b) Hw) as [Hdrop ->].
  now rewrite Hdrop.
Qed.

Lemma parse_ignores_space_and_case_witness :
  parseDiceExpression (" 2 D" ++ bytes [226; 128; 137]%N ++ "8 - 1") =
    Some (mkDiceExpression 2 8 (-1) None).
Proof.
  destruct (parse_ignores_space_and_case " 2 D" (bytes [226; 128; 137]%N) "8 - 1")
    as [H _].
  - reflexivity.
  - unfold whiteSpace. cbn [map bytes]. do 17 right. left. reflexivity.
  - rewrite H. reflexivity.
Defined.

End PrinterFacts.

(** ** The DiceRoller component *)

Module RollerFacts.

Import JS JSText DiceService DiceRoller Notions TextNotions RollNotions Samples.
Import StringFacts ParserFacts EvaluatorFacts PrinterFacts.

Lemma dieSpec_sign_tail (y : string) (negative : bool) (t : string) :
  dieSpec (y ++ String (signChar negative) t) = None.
Proof.
  unfold dieSpec.
  rewrite spanDigits_app_stop by (now destruct negative).
  destruct (spanDigits y) as [g1 r1]. cbn [fst snd].
  destruct r1 as [|c r2]; [now destruct negative|].
  cbn [append]. destruct (c =? "d")%char; [|reflexivity].
  rewrite spanDigits_app_stop by (now destruct negative).
  destruct (spanDigits r2) as [[|c2 g2] [|c3 r3]]; reflexivity.
Qed.

(** With a modifier and an attribute both set, the text that
    [buildFinalExpression] makes puts the number before the attribute,
    an order neither pattern accepts. *)
Lemma parse_modifier_then_attribute (expression : string) (modifier : Z)
    (attr : Attribute) (c : Character) :
  modifier <> 0 ->
  parseDiceExpression (buildFinalExpression expression modifier (Some attr) (Some c)) = None.
Proof.
  intros Hm.
  destruct (signedText_shape modifier Hm) as (m0 & M' & HM & HMd & _).
  destruct (digits_plain _ HMd) as [HMp HMl].
  destruct (signChar_plain (modifier <? 0)) as [Hsp Hsl].
  assert (Hshape :
            buildFinalExpression expression modifier (Some attr) (Some c)
            = (expression ++ String (signChar (modifier <? 0)) (String m0 M'))
              ++ ("+" ++ attributeName attr)).
  { unfold buildFinalExpression. apply Z.eqb_neq in Hm. rewrite Hm. cbn [negb].
    unfold signedText in HM. now rewrite HM. }
  assert (Hlow : toLowerCase (String (signChar (modifier <? 0)) (String m0 M'))
                 = String (signChar (modifier <? 0)) (String m0 M')).
  { cbn [toLowerCase] in *. now rewrite Hsl, HMl. }
  rewrite Hshape, <- parse_toLowerCase, toLowerCase_app.
  replace (toLowerCase ("+" ++ attributeName attr))
    with (String (signChar false) (attributeToken attr)) by (now destruct attr).
  rewrite parse_attribute_tail.
  rewrite toLowerCase_idem, toLowerCase_app, Hlow.
  rewrite removeWhiteSpace_app_plain.
  2:{ cbn [allPlain]. rewrite Hsp. exact HMp. }
  now rewrite dieSpec_sign_tail.
Qed.


(** X7: the roll form with a modifier and an attribute both set.
    [buildFinalExpression] puts the number before the attribute, an
    order neither pattern accepts: whatever the expression, and though
    the guard on the expression alone let it through, the roll ends in
    the invalid-expression message and no random value is consumed. *)
Theorem handleRoll_modifier_and_attribute (rt : Runtime) (expression : string)
    (modifier : Z) (attr : Attribute) (c : Character)
    (advantage disadvantage : bool) (description : string) (k : nat) :
  modifier <> 0 ->
  parseDiceExpression expression <> None ->
  handleRoll rt expression modifier (Some attr) (Some c)
             advantage disadvantage description k
  = (Failed "Roll failed" "Invalid dice expression", k).
Proof.
  intros Hm Hguard. unfold handleRoll.
  destruct (parseDiceExpression expression) as [p|]; [|contradiction].
  rewrite rollDice_run. cbn [DiceService.expression].
  now rewrite parse_modifier_then_attribute.
Qed.

Lemma handleRoll_modifier_and_attribute_witness :
  handleRoll alternating "1d20" 2 (Some STR) (Some fighter) true false "" 0%nat
  = (Failed "Roll failed" "Invalid dice expression", 0%nat).
Proof.
  apply handleRoll_modifier_and_attribute; [lia | discriminate].
Defined.





End RollerFacts.

(** ** Rolls, further *)

Module BonusFacts.

Import JS DiceService Notions RollNotions Samples StringFacts ParserFacts EvaluatorFacts.

(** X4: every expression the parser returns has a count from 1 to 100
    and sides from 1 to 1000, and its text is accepted by
    [isValidExpression]. *)
Theorem parsed_within_bounds (expression : string) (parsed : DiceExpression) :
  parseDiceExpression expression = Some parsed ->
  1 <= count parsed <= 100 /\ 1 <= sides parsed <= 1000
  /\ isValidExpression expression = true.
Proof.
  intros Hp. destruct (parse_bounds _ _ Hp) as [Hc Hs].
  unfold isValidExpression. rewrite Hp. auto.
Qed.

Lemma parsed_within_bounds_witness :
  1 <= 100 <= 100 /\ 1 <= 1000 <= 1000 /\ isValidExpression "100D1000 - 7" = true.
Proof.
  apply (parsed_within_bounds "100D1000 - 7" (mkDiceExpression 100 1000 (-7) None)).
  reflexivity.
Defined.



(** X6: one d20 rolled three ways from the same cursor.  The roll with
    advantage and the one with disadvantage take two values, the plain
    one takes one; the modifiers are the same, and the total with
    advantage is at least the plain total, which is at least the total
    with disadvantage. *)
Theorem advantage_orders_totals (rt : Runtime) (request : RollRequest)
    (parsed : DiceExpression) (k : nat) :
  parseDiceExpression (expression request) = Some parsed ->
  sides parsed = 20 -> count parsed = 1 ->
  exists high normal low,
    rollDice rt (withFlags request (Some true) None) k = (Return high, (k + 2)%nat)
    /\ rollDice rt (withFlags request None None) k = (Return normal, (k + 1)%nat)
    /\ rollDice rt (withFlags request None (Some true)) k = (Return low, (k + 2)%nat)
    /\ total low <= total normal <= total high
    /\ modifiers low = modifiers normal /\ modifiers normal = modifiers high.
Proof.
  intros Hp Hs Hc.
  rewrite !rollDice_run. cbn [expression withFlags]. rewrite Hp, !evaluate_run.
  unfold drawsUsed, keptResults, advantageMode, hasAdvantage, hasDisadvantage.
  cbn [advantage disadvantage withFlags truthy]. rewrite Hs, Hc.
  cbn [Z.eqb Pos.eqb andb orb Z.to_nat Pos.to_nat Pos.iter_op Nat.add seq map].
  do 3 eexists. split; [reflexivity|]. split; [reflexivity|]. split; [reflexivity|].
  cbn [total modifiers sumZ].
  change (appliedModifiers (withFlags request (Some true) None) parsed)
    with (appliedModifiers request parsed).
  change (appliedModifiers (withFlags request None None) parsed)
    with (appliedModifiers request parsed).
  change (appliedModifiers (withFlags request None (Some true)) parsed)
    with (appliedModifiers request parsed).
  change (PosDef.Pos.to_nat 1) with 1%nat. cbn [seq map sumZ].
  split; [lia | split; reflexivity].
Qed.

Lemma advantage_orders_totals_witness :
  exists high normal low,
    rollDice alternating (withFlags (plain "d20+3") (Some true) None) 1%nat
      = (Return high, 3%nat)
    /\ rollDice alternating (withFlags (plain "d20+3") None None) 1%nat
      = (Return normal, 2%nat)
    /\ rollDice alternating (withFlags (plain "d20+3") None (Some true)) 1%nat
      = (Return low, 3%nat)
    /\ total low <= total normal <= total high.
Proof.
  destruct (advantage_orders_totals alternating (plain "d20+3")
              (mkDiceExpression 1 20 3 None) 1%nat eq_refl eq_refl eq_refl)
    as (high & pl & low & H1 & H2 & H3 & H4 & _).
  exists high, pl, low. auto.
Defined.

End BonusFacts.

(** ** Rolls with the crypto source *)

Module SecureFacts.

Import JS DiceService Notions Samples ParserFacts EvaluatorFacts.





End SecureFacts.

(** ** Maps *)

Module MapFacts.

Import JSMap HistoryNotions.

Lemma get_set_same {V} (m : Map V) (k : string) (v : V) : get (set m k v) k = Some v.
Proof.
  induction m as [|[k' v'] m IH]; simpl.
  - now rewrite String.eqb_refl.
  - destruct (String.eqb k' k) eqn:E; simpl.
    + now rewrite String.eqb_refl.
    + now rewrite E.
Qed.

Lemma get_set_other {V} (m : Map V) (k k' : string) (v : V) :
  k' <> k -> get (set m k v) k' = get m k'.
Proof.
  intros Hne. induction m as [|[k0 v0] m IH]; simpl.
  - destruct (String.eqb_spec k k'); [congruence | reflexivity].
  - destruct (String.eqb_spec k0 k) as [->|Hk]; simpl.
    + destruct (String.eqb_spec k k'); [congruence | reflexivity].
    + now rewrite IH.
Qed.

Lemma get_delete_same {V} (m : Map V) (k : string) : get (delete m k) k = None.
Proof.
  induction m as [|[k' v'] m IH]; simpl; [reflexivity|].
  destruct (String.eqb k' k) eqn:E; simpl; [assumption|]. now rewrite E.
Qed.

Lemma get_delete_other {V} (m : Map V) (k k' : string) :
  k' <> k -> get (delete m k) k' = get m k'.
Proof.
  intros Hne. induction m as [|[k0 v0] m IH]; simpl; [reflexivity|].
  destruct (String.eqb_spec k0 k) as [->|Hk]; simpl.
  - destruct (String.eqb_spec k k'); [congruence | assumption].
  - now rewrite IH.
Qed.

Lemma get_None_keys {V} (m : Map V) (k : string) : get m k = None <-> ~ In k (keys m).
Proof.
  induction m as [|[k' v'] m IH]; simpl; [tauto|].
  destruct (String.eqb_spec k' k) as [->|Hk].
  - split; [discriminate | intros H; exfalso; apply H; now left].
  - rewrite IH. split; [intros H [?|?]; [congruence | contradiction] | tauto].
Qed.

Lemma set_absent {V} (m : Map V) (k : string) (v : V) :
  ~ In k (keys m) -> set m k v = (m ++ [(k, v)])%list.
Proof.
  induction m as [|[k' v'] m IH]; simpl; intros H; [reflexivity|].
  destruct (String.eqb_spec k' k) as [->|Hk]; [exfalso; apply H; now left|].
  rewrite IH; [reflexivity | tauto].
Qed.

Lemma keys_set {V} (m : Map V) (k : string) (v : V) :
  keys (set m k v) = if has m k then keys m else (keys m ++ [k])%list.
Proof.
  unfold has. induction m as [|[k' v'] m IH]; simpl; [reflexivity|].
  destruct (String.eqb_spec k' k) as [->|Hk]; simpl; [reflexivity|].
  rewrite IH. now destruct (get m k).
Qed.

Lemma NoDup_set {V} (m : Map V) (k : string) (v : V) :
  NoDup (keys m) -> NoDup (keys (set m k v)).
Proof.
  intros Hnd. rewrite keys_set. unfold has.
  destruct (get m k) eqn:E; [assumption|].
  apply get_None_keys in E.
  apply NoDup_app; [assumption | repeat constructor; intros [] | ].
  intros x Hx [<-|[]]. contradiction.
Qed.

Lemma NoDup_delete {V} (m : Map V) (k : string) :
  NoDup (keys m) -> NoDup (keys (delete m k)).
Proof.
  unfold delete, keys. induction m as [|[k' v'] m IH]; simpl; intros Hnd; [constructor|].
  inversion Hnd as [|? ? Hnotin Hnd']; subst.
  destruct (String.eqb k' k); simpl; [now apply IH|].
  constructor; [|now apply IH].
  intros Hin. apply Hnotin. apply in_map_iff in Hin as ([k0 v0] & <- & Hf).
  apply filter_In in Hf as [Hf _]. apply in_map_iff. now exists (k0, v0).
Qed.

Lemma fold_set_fresh {V} (m : Map V) :
  forall acc, NoDup (keys (acc ++ m)%list) ->
    fold_left (fun a e => set a (fst e) (snd e)) m acc = (acc ++ m)%list.
Proof.
  induction m as [|[k v] m IH]; intros acc Hnd; simpl.
  - now rewrite app_nil_r.
  - rewrite set_absent.
    + rewrite IH; rewrite <- app_assoc; [reflexivity | assumption].
    + unfold keys in Hnd. rewrite map_app in Hnd. simpl in Hnd.
      apply NoDup_remove_2 in Hnd. intros Hin. apply Hnd. apply in_or_app. now left.
Qed.

(** A map is the map of its entries. *)
Lemma fromEntries_entries {V} (m : Map V) :
  NoDup (keys m) -> fromEntries (entries m) = m.
Proof. intros Hnd. unfold fromEntries, entries. now rewrite fold_set_fresh. Qed.

Lemma NoDup_fromEntries {V} (data : list (string * V)) : NoDup (keys (fromEntries data)).
Proof.
  unfold fromEntries.
  assert (H : forall acc, NoDup (keys acc) ->
            NoDup (keys (fold_left (fun a e => set a (fst e) (snd e)) data acc))).
  { induction data as [|e data IH]; intros acc Hacc; simpl; [assumption|].
    apply IH. now apply NoDup_set. }
  apply H. constructor.
Qed.

End MapFacts.

(** ** The roll history *)

Module HistoryFacts.

Import JSMap MapFacts LocalStorage RollHistory HistoryNotions MoreSamples.

Lemma lastN_short {A} (n : nat) (l : list A) : (length l <= n)%nat -> lastN n l = l.
Proof. intros H. unfold lastN. now replace (length l - n)%nat with O by lia. Qed.

Lemma lastN_length {A} (n : nat) (l : list A) : length (lastN n l) = Nat.min (length l) n.
Proof. unfold lastN. rewrite length_skipn. lia. Qed.

Lemma lastN_rev {A} (n : nat) (l : list A) : lastN n l = rev (firstn n (rev l)).
Proof. unfold lastN. now rewrite firstn_rev, rev_involutive. Qed.

Lemma lastN_snoc {A} (n : nat) (l : list A) (x : A) :
  lastN (S n) (l ++ [x]) = (lastN n l ++ [x])%list.
Proof.
  rewrite !lastN_rev, rev_app_distr. simpl. reflexivity.
Qed.

Lemma lastN_lastN_snoc {A} (n : nat) (l : list A) (x : A) :
  lastN n (lastN n l ++ [x]) = lastN n (l ++ [x]).
Proof.
  destruct n as [|n]; [unfold lastN; now rewrite !Nat.sub_0_r, !skipn_all|].
  rewrite !lastN_snoc. f_equal.
  rewrite !lastN_rev, rev_involutive, firstn_firstn.
  now replace (Nat.min n (S n)) with n by lia.
Qed.

(** What [saveDiceRoll] leaves in the map for its session. *)
Lemma saveDiceRoll_get (s : string) (r : DiceRoll) (st : State) :
  getRollHistory s (saveDiceRoll s r st) = lastN 100 (getRollHistory s st ++ [r]).
Proof.
  unfold getRollHistory, saveDiceRoll, saveToStorage, has.
  cbn [writable rollHistory].
  assert (H : forall m, get (set m s (lastN 100 (match get m s with
                                                   | Some rolls => rolls
                                                   | None => []
                                                   end ++ [r]))) s
                        = Some (lastN 100 (match get m s with
                                           | Some rolls => rolls
                                           | None => []
                                           end ++ [r])))
    by (intros m; apply get_set_same).
  destruct (get (rollHistory st) s) as [old|] eqn:E; cbn [negb].
  - rewrite E.
    destruct (100 <? length (old ++ [r]))%nat eqn:L.
    + destruct (writable st); cbn [rollHistory]; now rewrite get_set_same.
    + apply Nat.ltb_ge in L.
      destruct (writable st); cbn [rollHistory]; rewrite get_set_same;
        now rewrite lastN_short.
  - rewrite get_set_same.
    replace (100 <? length ([] ++ [r]))%nat with false by reflexivity.
    destruct (writable st); cbn [rollHistory]; now rewrite get_set_same.
Qed.

Lemma saveDiceRoll_get_other (s s' : string) (r : DiceRoll) (st : State) :
  s' <> s -> getRollHistory s' (saveDiceRoll s r st) = getRollHistory s' st.
Proof.
  intros Hne. unfold getRollHistory, saveDiceRoll, saveToStorage.
  cbn [writable rollHistory].
  destruct (writable st); cbn [rollHistory]; rewrite get_set_other by assumption;
    destruct (negb (has (rollHistory st) s)); now rewrite ?get_set_other by assumption.
Qed.

Lemma clearSessionHistory_get (s s' : string) (st : State) :
  getRollHistory s' (clearSessionHistory s st)
  = if String.eqb s s' then [] else getRollHistory s' st.
Proof.
  unfold getRollHistory, clearSessionHistory, saveToStorage. cbn [writable rollHistory].
  destruct (String.eqb_spec s s') as [->|Hne].
  - destruct (writable st); cbn [rollHistory]; now rewrite get_delete_same.
  - destruct (writable st); cbn [rollHistory]; rewrite get_delete_other; congruence.
Qed.

(** X9: after [saveDiceRoll] the history of the session is the last
    hundred of what it was with the new roll at the end: never more than
    a hundred rolls, the new roll last, and nothing dropped while there
    were fewer than a hundred. *)
Theorem saveDiceRoll_keeps_last_hundred (s : string) (r : DiceRoll) (st : State) :
  getRollHistory s (saveDiceRoll s r st) = lastN 100 (getRollHistory s st ++ [r])
  /\ (length (getRollHistory s (saveDiceRoll s r st)) <= 100)%nat
  /\ (exists front, getRollHistory s (saveDiceRoll s r st) = front ++ [r])%list
  /\ ((length (getRollHistory s st) < 100)%nat ->
      getRollHistory s (saveDiceRoll s r st) = (getRollHistory s st ++ [r])%list).
Proof.
  rewrite saveDiceRoll_get. split; [reflexivity|]. split; [|split].
  - rewrite lastN_length. lia.
  - change 100%nat with (S 99). rewrite lastN_snoc. eexists. reflexivity.
  - intros Hlt. apply lastN_short. rewrite length_app. simpl. lia.
Qed.

Lemma saveDiceRoll_keeps_last_hundred_witness :
  getRollHistory "session-1" (saveDiceRoll "session-1" firstRoll noHistory) = [firstRoll].
Proof.
  destruct (saveDiceRoll_keeps_last_hundred "session-1" firstRoll noHistory)
    as (_ & _ & _ & H).
  apply H. cbn. lia.
Defined.

(** X10: a save or a clear for one session leaves the history of every
    other session as it was. *)
Theorem history_sessions_are_separate (s s' : string) (r : DiceRoll) (st : State) :
  s' <> s ->
  getRollHistory s' (saveDiceRoll s r st) = getRollHistory s' st
  /\ getRollHistory s' (clearSessionHistory s st) = getRollHistory s' st.
Proof.
  intros Hne. split; [now apply saveDiceRoll_get_other|].
  rewrite clearSessionHistory_get.
  destruct (String.eqb_spec s s'); [congruence | reflexivity].
Qed.

Lemma history_sessions_are_separate_witness :
  getRollHistory "session-2" (saveDiceRoll "session-1" firstRoll noHistory) = []
  /\ getRollHistory "session-2"
       (clearSessionHistory "session-1" (saveDiceRoll "session-2" firstRoll noHistory))
     = [firstRoll].
Proof.
  split.
  - apply (history_sessions_are_separate "session-1" "session-2" firstRoll noHistory).
    discriminate.
  - apply (history_sessions_are_separate "session-1" "session-2" firstRoll
             (saveDiceRoll "session-2" firstRoll noHistory)).
    discriminate.
Defined.

Lemma applyOp_get (session : string) (op : HistoryOp) (st : State) :
  getRollHistory session (applyOp st op)
  = match op with
    | Save s r =>
        if String.eqb s session
        then lastN 100 (getRollHistory session st ++ [r])
        else getRollHistory session st
    | Clear s => if String.eqb s session then [] else getRollHistory session st
    end.
Proof.
  destruct op as [s r|s]; cbn [applyOp].
  - destruct (String.eqb_spec s session) as [->|Hne];
      [apply saveDiceRoll_get | apply saveDiceRoll_get_other; congruence].
  - apply clearSessionHistory_get.
Qed.

Lemma initialize_empty (w : bool) (session : string) :
  getRollHistory session (initialize NoItem w) = [].
Proof. reflexivity. Qed.

(** X11: starting with nothing stored, after any sequence of saves and
    clears the history of a session is the last hundred of the rolls
    saved for it since it was last cleared. *)
Theorem history_is_last_hundred_saved (w : bool) (ops : list HistoryOp) (session : string) :
  getRollHistory session (runOps ops (initialize NoItem w))
  = lastN 100 (uncapped session ops)
  /\ (length (getRollHistory session (runOps ops (initialize NoItem w))) <= 100)%nat.
Proof.
  assert (H : getRollHistory session (runOps ops (initialize NoItem w))
              = lastN 100 (uncapped session ops)).
  { unfold runOps, uncapped.
    induction ops as [|op ops IH] using rev_ind; [reflexivity|].
    rewrite !fold_left_app. cbn [fold_left]. rewrite applyOp_get, IH.
    destruct op as [s r|s]; cbn [uncappedStep];
      destruct (String.eqb s session); try reflexivity.
    apply lastN_lastN_snoc. }
  split; [exact H|]. rewrite H, lastN_length. lia.
Qed.

Lemma NoDup_applyOp (op : HistoryOp) (st : State) :
  NoDup (keys (rollHistory st)) -> NoDup (keys (rollHistory (applyOp st op))).
Proof.
  intros Hnd. destruct op as [s r|s]; cbn [applyOp];
    unfold saveDiceRoll, clearSessionHistory, saveToStorage; cbn [writable rollHistory].
  - destruct (writable st); cbn [rollHistory]; apply NoDup_set;
      destruct (negb (has (rollHistory st) s)); try assumption; now apply NoDup_set.
  - destruct (writable st); cbn [rollHistory]; now apply NoDup_delete.
Qed.

Lemma applyOp_stored (op : HistoryOp) (st : State) :
  writable st = true ->
  item (applyOp st op) = Json (entries (rollHistory (applyOp st op)))
  /\ writable (applyOp st op) = true.
Proof.
  intros Hw. destruct op as [s r|s]; cbn [applyOp];
    unfold saveDiceRoll, clearSessionHistory, saveToStorage; cbn [writable rollHistory];
    rewrite Hw; split; reflexivity.
Qed.

(** X12: while writes to the storage succeed, what is stored is the
    whole history: whatever was stored at the start, loading the storage
    back after any sequence of saves and clears changes nothing. *)
Theorem reload_changes_nothing (stored : Item (list DiceRoll)) (ops : list HistoryOp) :
  loadFromStorage (runOps ops (initialize stored true))
  = runOps ops (initialize stored true).
Proof.
  assert (Hinv : NoDup (keys (rollHistory (runOps ops (initialize stored true))))
                 /\ writable (runOps ops (initialize stored true)) = true
                 /\ (ops <> [] ->
                     item (runOps ops (initialize stored true))
                     = Json (entries (rollHistory (runOps ops (initialize stored true)))))).
  { unfold runOps. induction ops as [|op ops IH] using rev_ind.
    - cbn [fold_left]. split; [|split; [|congruence]].
      + destruct stored; cbn; try constructor. apply NoDup_fromEntries.
      + now destruct stored.
    - rewrite fold_left_app. cbn [fold_left]. destruct IH as (Hnd & Hw & _).
      split; [now apply NoDup_applyOp|].
      destruct (applyOp_stored op _ Hw) as [Hitem Hw']. auto. }
  destruct Hinv as (Hnd & Hw & Hitem).
  destruct ops as [|op ops].
  - cbn [runOps fold_left]. unfold initialize, loadFromStorage. cbn [item].
    destruct stored; reflexivity.
  - specialize (Hitem ltac:(discriminate)).
    destruct (runOps (op :: ops) (initialize stored true)) as [m i wr].
    cbn [rollHistory item writable] in *. subst i wr.
    unfold loadFromStorage. cbn [item rollHistory writable].
    now rewrite fromEntries_entries.
Qed.

End HistoryFacts.

(** ** Suggestions *)

Module SuggestionFacts.

Import JS JSText DiceService Suggestions Notions TextNotions StringFacts.

Lemma basicSuggestions_candidates (cleaned : string) :
  incl (basicSuggestions cleaned) candidates.
Proof.
  intros x Hx. unfold basicSuggestions in Hx.
  apply in_flat_map in Hx as (num & Hnum & Hx).
  apply in_or_app. left. apply in_flat_map. exists num. split; [assumption|].
  destruct (prefix cleaned (toString num) || prefix cleaned ("d" ++ toString num));
    [|destruct Hx].
  destruct (num <=? 20); cbn [In] in *; intuition.
Qed.

Lemma attributeSuggestions_candidates (cleaned : string) :
  incl (attributeSuggestions cleaned) candidates.
Proof.
  intros x Hx. unfold attributeSuggestions in Hx.
  destruct (existsb _ _); [|destruct Hx].
  apply in_flat_map in Hx as (attr & Hattr & Hx).
  apply in_or_app. right. apply in_map_iff. exists attr. split; [|assumption].
  destruct (prefix _ _); [|destruct Hx]. destruct Hx as [<-|[]]. reflexivity.
Qed.

Lemma candidates_valid : forallb isValidExpression candidates = true.
Proof. vm_compute. reflexivity. Qed.

Lemma firstn_incl {A} (n : nat) (l : list A) : incl (firstn n l) l.
Proof.
  intros x Hx. rewrite <- (firstn_skipn n l). apply in_or_app. now left.
Qed.

(** X13: [getSuggestions] offers at most five expressions, each of which
    [parseDiceExpression] accepts. *)
Theorem suggestions_are_valid (input : string) :
  (length (getSuggestions input) <= 5)%nat
  /\ Forall (fun suggestion => isValidExpression suggestion = true)
            (getSuggestions input).
Proof.
  unfold getSuggestions. cbv zeta. split.
  - rewrite length_firstn. lia.
  - apply Forall_forall. intros x Hx. apply firstn_incl in Hx.
    pose proof candidates_valid as Hvalid. rewrite forallb_forall in Hvalid.
    apply Hvalid. apply in_app_or in Hx as [Hx|Hx].
    + destruct (diceSoFar _); [|destruct Hx].
      exact (basicSuggestions_candidates _ x Hx).
    + exact (attributeSuggestions_candidates _ x Hx).
Qed.

Lemma list_of_append (x y : string) :
  list_ascii_of_string (x ++ y)
  = List.app (list_ascii_of_string x) (list_ascii_of_string y).
Proof. induction x as [|c x IH]; [reflexivity|]. cbn. now rewrite IH. Qed.

Lemma string_of_app (l1 l2 : list ascii) :
  string_of_list_ascii (List.app l1 l2)
  = string_of_list_ascii l1 ++ string_of_list_ascii l2.
Proof. induction l1 as [|c l1 IH]; [reflexivity|]. cbn. now rewrite IH. Qed.

Lemma reverse_app (x y : string) : reverse (x ++ y) = reverse y ++ reverse x.
Proof. unfold reverse. now rewrite list_of_append, rev_app_distr, string_of_app. Qed.

Lemma reverse_involutive (x : string) : reverse (reverse x) = x.
Proof.
  unfold reverse.
  now rewrite list_ascii_of_string_of_list_ascii, rev_involutive,
    string_of_list_ascii_of_string.
Qed.

Lemma diceLetters_app (x y : string) :
  diceLetters (x ++ y) = diceLetters x && diceLetters y.
Proof.
  induction x as [|c x IH]; [reflexivity|]. cbn [append diceLetters].
  now rewrite IH, andb_assoc.
Qed.

Lemma allDigits_diceLetters (g : string) : allDigits g = true -> diceLetters g = true.
Proof.
  induction g as [|c g IH]; [reflexivity|]. cbn [allDigits diceLetters]. intros H.
  apply andb_true_iff in H as [-> Hg]. now rewrite IH.
Qed.

Lemma spanDigits_letters (s : string) :
  diceLetters (fst (spanDigits s)) = true
  /\ (snd (spanDigits s) = "" -> diceLetters s = true).
Proof.
  destruct (ParserFacts.spanDigits_inv s) as (Hs & Hg & _).
  split; [now apply allDigits_diceLetters|].
  intros Hr. rewrite Hs, Hr, append_empty_r. now apply allDigits_diceLetters.
Qed.

Lemma diceSoFar_letters (s : string) : diceSoFar s = true -> diceLetters s = true.
Proof.
  unfold diceSoFar. intros H.
  destruct (ParserFacts.spanDigits_inv s) as (Hs & _ & _).
  destruct (spanDigits_letters s) as [Hg _].
  destruct (spanDigits s) as [g r]. cbn [fst snd] in *. subst s.
  rewrite diceLetters_app, Hg. cbn [andb].
  assert (Htail : forall t, (let '(_, r') := spanDigits t in
                             match r' with EmptyString => true | _ => false end) = true ->
                            diceLetters t = true).
  { intros t Ht. destruct (spanDigits_letters t) as [_ Hall].
    destruct (spanDigits t) as [g2 r2]. cbn [snd] in Hall.
    destruct r2; [now apply Hall | discriminate]. }
  destruct r as [|c r']; [now apply Htail|].
  destruct (c =? "d")%char eqn:Ec.
  - cbn [diceLetters]. rewrite Ec, orb_true_r. now apply Htail.
  - now apply Htail.
Qed.

Lemma lineByte_lower (c : ascii) : lineByte c = true -> lineByte (lowerChar c) = true.
Proof. destruct c as [[] [] [] [] [] [] [] []]; intros H; try discriminate H; reflexivity. Qed.

Lemma oneLine_lower (a : string) : oneLine a = true -> oneLine (toLowerCase a) = true.
Proof.
  induction a as [|c a IH]; [reflexivity|]. cbn [oneLine toLowerCase]. intros H.
  apply andb_true_iff in H as [Hc Ha]. now rewrite (lineByte_lower c Hc), IH.
Qed.

Lemma lineByte_no_terminator (c : ascii) (r : string) :
  lineByte c = true -> lineTerminator (String c r) = O /\ continuation c = false.
Proof. destruct c as [[] [] [] [] [] [] [] []]; intros H; try discriminate H; now split. Qed.

Lemma lastPairOfLine_app (a t letters : string) :
  oneLine a = true -> lastPairOfLine t = Some letters ->
  lastPairOfLine (a ++ t) = Some letters.
Proof.
  intros Ha Ht. induction a as [|c a IH]; [assumption|].
  cbn [oneLine] in Ha. apply andb_true_iff in Ha as [Hc Ha].
  cbn [append lastPairOfLine].
  rewrite (proj1 (lineByte_no_terminator c (a ++ t) Hc)). now rewrite IH.
Qed.

Lemma afterLine_app (a t : string) :
  oneLine a = true -> afterLine (a ++ t) = afterLine t.
Proof.
  intros Ha. induction a as [|c a IH]; [reflexivity|].
  cbn [oneLine] in Ha. apply andb_true_iff in Ha as [Hc Ha].
  cbn [append afterLine].
  rewrite (proj1 (lineByte_no_terminator c (a ++ t) Hc)). now apply IH.
Qed.

Lemma replaceLetterGroup_line (a t letters : string) :
  oneLine (a ++ t) = true -> lastPairOfLine (a ++ t) = Some letters ->
  afterLine (a ++ t) = "" ->
  replaceLetterGroup (a ++ t) = letters.
Proof.
  intros Hl Hp Hafter. destruct (a ++ t) as [|c r]; [discriminate|].
  cbn [oneLine] in Hl. apply andb_true_iff in Hl as [Hc _].
  cbn [replaceLetterGroup]. rewrite (proj2 (lineByte_no_terminator c r Hc)), Hp, Hafter.
  apply append_empty_r.
Qed.

Lemma oneLine_app (x y : string) : oneLine (x ++ y) = oneLine x && oneLine y.
Proof.
  induction x as [|c x IH]; [reflexivity|]. cbn [append oneLine].
  now rewrite IH, andb_assoc.
Qed.

Lemma plain_lower (c : ascii) :
  lineByte c = true -> plainChar c = true -> plainChar (lowerChar c) = true.
Proof.
  destruct c as [[] [] [] [] [] [] [] []]; intros H H'; try discriminate H;
    try discriminate H'; reflexivity.
Qed.

Lemma trimStart_plain (c : ascii) (r : string) :
  lineByte c = true -> plainChar c = true -> trimStart (String c r) = String c r.
Proof.
  destruct c as [[] [] [] [] [] [] [] []]; intros H H'; try discriminate H;
    try discriminate H'; reflexivity.
Qed.

Lemma trimEnd_token (x : string) (attr : Attribute) :
  trimEnd (x ++ attributeToken attr) = x ++ attributeToken attr.
Proof.
  unfold trimEnd. rewrite reverse_app.
  replace (dropLeading (map reverse whiteSpace) 0 (reverse (attributeToken attr) ++ reverse x))
    with (reverse (attributeToken attr) ++ reverse x) by (destruct attr; reflexivity).
  now rewrite <- reverse_app, reverse_involutive.
Qed.

(** X14: when the text typed ends with the name of an attribute, in any
    letter case, [getSuggestions] offers nothing: the letters its
    pattern keeps are the last two of the name, with which no attribute
    begins.  The text before the name is any ASCII text on one line that
    does not start with white space. *)
Theorem attribute_name_gets_no_suggestion (a name : string) (attr : Attribute) :
  oneLine a = true -> startsPlain a = true ->
  toLowerCase name = attributeToken attr ->
  getSuggestions (a ++ name) = [].
Proof.
  intros Ha Hs Hname.
  assert (Hclean : trim (toLowerCase (a ++ name)) = toLowerCase a ++ attributeToken attr).
  { rewrite ParserFacts.toLowerCase_app, Hname. unfold trim.
    replace (trimStart (toLowerCase a ++ attributeToken attr))
      with (toLowerCase a ++ attributeToken attr); [apply trimEnd_token|].
    destruct a as [|c a]; [now destruct attr|].
    cbn [oneLine] in Ha. apply andb_true_iff in Ha as [Hc _]. cbn [startsPlain] in Hs.
    cbn [toLowerCase append]. symmetry. apply trimStart_plain.
    - now apply lineByte_lower.
    - now apply plain_lower. }
  unfold getSuggestions. cbv zeta. rewrite Hclean.
  pose proof (oneLine_lower a Ha) as Hla.
  assert (Hdice : diceSoFar (toLowerCase a ++ attributeToken attr) = false).
  { destruct (diceSoFar _) eqn:E; [|reflexivity].
    apply diceSoFar_letters in E. rewrite diceLetters_app in E.
    apply andb_true_iff in E as [_ E]. now destruct attr. }
  rewrite Hdice. cbn [List.app].
  assert (Hattr : attributeSuggestions (toLowerCase a ++ attributeToken attr) = []).
  { unfold attributeSuggestions. destruct (existsb _ _); [|reflexivity].
    assert (Hpair : exists letters,
              lastPairOfLine (attributeToken attr) = Some letters
              /\ forall other, prefix letters (toLowerCase (attributeName other)) = false).
    { destruct attr; eexists; (split; [reflexivity|]); intros []; reflexivity. }
    destruct Hpair as (letters & Hp & Hnone).
    rewrite (replaceLetterGroup_line (toLowerCase a) (attributeToken attr) letters).
    - unfold attrs. cbn [flat_map]. now rewrite !Hnone.
    - rewrite oneLine_app, Hla. now destruct attr.
    - now apply lastPairOfLine_app.
    - rewrite afterLine_app by assumption. now destruct attr. }
  now rewrite Hattr.
Qed.

Lemma attribute_name_gets_no_suggestion_witness :
  getSuggestions "1d20+STR" = [].
Proof.
  apply (attribute_name_gets_no_suggestion "1d20+" "STR" STR); reflexivity.
Defined.

End SuggestionFacts.

(** ** Characters *)

Module ArmourFacts.

Import JS Types CharacterStore Notions SheetNotions.
Import Samples MoreSamples.

Lemma modifier_monotone (a b : Z) :
  a <= b -> CharacterService.calculateModifier a <= CharacterService.calculateModifier b.
Proof.
  intros H. rewrite !CharacterFacts.calculateModifier_div.
  apply Z.div_le_mono; lia.
Qed.

Lemma find_filter_equipped (armor : list Armor) :
  find equipped (filter equipped armor) = find equipped armor.
Proof.
  induction armor as [|a r IH]; [reflexivity|]. simpl.
  destruct (equipped a) eqn:E; simpl; [now rewrite E | assumption].
Qed.

(** X15: only the first equipped armour counts for the armour class, and
    it caps the DEX bonus: armour that is not equipped, or equipped
    after it, changes nothing, and the result never exceeds its base
    plus its cap.  With no armour equipped the base is 10 and the cap
    999. *)
Theorem calculateAC_first_equipped (attrs : BasicAttributes) (armor : list Armor) :
  calculateAC attrs armor = calculateAC attrs (filter equipped armor)
  /\ match find equipped armor with
     | Some a =>
         calculateAC attrs armor = calculateAC attrs [a]
         /\ calculateAC attrs armor
            = baseAC a + Z.min (CharacterService.calculateModifier (attrDEX attrs))
                               (maxAttributeBonus a)
         /\ calculateAC attrs armor <= baseAC a + maxAttributeBonus a
     | None =>
         calculateAC attrs armor
         = 10 + Z.min (CharacterService.calculateModifier (attrDEX attrs)) 999
     end.
Proof.
  unfold calculateAC. rewrite find_filter_equipped. split; [reflexivity|].
  destruct (find equipped armor) as [a|] eqn:E; [|reflexivity].
  apply find_some in E as [_ Ea]. cbn [find]. rewrite Ea.
  repeat split. lia.
Qed.

(** X16: the armour class never goes down when DEX goes up; without
    equipped armour and with a DEX score from 3 to 20 it is 10 plus the
    DEX modifier, a value from 6 to 15. *)
Theorem calculateAC_monotone (attrs : BasicAttributes) (armor : list Armor)
    (dex dex' : Z) :
  dex <= dex' ->
  calculateAC (withDEX attrs dex) armor <= calculateAC (withDEX attrs dex') armor
  /\ (3 <= dex <= 20 -> find equipped armor = None ->
      calculateAC (withDEX attrs dex) armor = 10 + (dex - 10) / 2
      /\ 6 <= calculateAC (withDEX attrs dex) armor <= 15).
Proof.
  intros Hle. unfold calculateAC. cbn [attrDEX withDEX].
  pose proof (modifier_monotone dex dex' Hle) as Hm.
  split.
  - destruct (find equipped armor); lia.
  - intros Hd ->. rewrite CharacterFacts.calculateModifier_div.
    assert (-4 <= (dex - 10) / 2 <= 5).
    { split; [apply Z.div_le_lower_bound | apply Z.div_le_upper_bound]; lia. }
    lia.
Qed.

Lemma calculateAC_monotone_witness :
  calculateAC (withDEX (basicAttributes fighter) 8) []
  <= calculateAC (withDEX (basicAttributes fighter) 16) []
  /\ calculateAC (withDEX (basicAttributes fighter) 8) [] = 9.
Proof.
  destruct (calculateAC_monotone (basicAttributes fighter) [] 8 16 ltac:(lia)) as [H1 H2].
  split; [exact H1|]. destruct (H2 ltac:(lia) eq_refl) as [H3 _]. exact H3.
Defined.

End ArmourFacts.

Module ValidationFacts.

Import JS Types CharacterStore Notions SheetNotions.
Import Samples MoreSamples.

Lemma errorValues_nil (e : Errors.t) :
  errorValues e = [] <->
  Errors.characterName e = None /\ Errors.playerName e = None
  /\ Errors.ancestry e = None /\ Errors.class e = None
  /\ Errors.background e = None /\ Errors.attributes e = None
  /\ Errors.resources e = None /\ Errors.general e = None.
Proof.
  destruct e as [a b c d e f g h]. unfold errorValues. cbn [Errors.characterName
    Errors.playerName Errors.ancestry Errors.class Errors.background
    Errors.attributes Errors.resources Errors.general map].
  split.
  - intros H.
    destruct a; [discriminate|]. destruct b; [discriminate|].
    destruct c; [discriminate|]. destruct d; [discriminate|].
    destruct e; [discriminate|]. destruct f; [discriminate|].
    destruct g; [discriminate|]. destruct h; [discriminate|].
    repeat split.
  - intros (-> & -> & -> & -> & -> & -> & -> & ->). reflexivity.
Qed.

Lemma isValid_errors (data : Data.t) :
  isValid (validateCharacter data) = true
  <-> errorValues (errors (validateCharacter data)) = [].
Proof.
  unfold validateCharacter. cbv zeta. cbn [isValid errors].
  match goal with |- context [errorValues ?e] => destruct (errorValues e) end;
    split; intros H; try reflexivity; discriminate.
Qed.

Lemma sum_attributeValues (attrs : BasicAttributes) :
  fold_left (fun sum val => sum + val) (attributeValues attrs) 0 = sumScores attrs.
Proof. unfold attributeValues, sumScores. cbn [fold_left]. lia. Qed.

Lemma outOfRange_list (l : list Z) :
  existsb (fun val => (val <? 3) || (20 <? val)) l = false
  <-> Forall (fun v => 3 <= v <= 20) l.
Proof.
  induction l as [|v r IH]; cbn [existsb].
  - split; [constructor | reflexivity].
  - rewrite orb_false_iff, IH, orb_false_iff, !Z.ltb_ge. split.
    + intros [[H1 H2] H3]. constructor; [lia | assumption].
    + intros H. inversion H; subst. repeat split; [lia | lia | assumption].
Qed.

Lemma outOfRange_false (attrs : BasicAttributes) :
  existsb (fun val => (val <? 3) || (20 <? val)) (attributeValues attrs) = false
  <-> scoresInRange attrs.
Proof. apply outOfRange_list. Qed.

Lemma attributes_message (data : Data.t) :
  Errors.attributes (errors (validateCharacter data)) =
  match Data.basicAttributes data with
  | Some attrs =>
      if (sumScores attrs <? 48) || (90 <? sumScores attrs)
      then Some "Total attribute points should be between 48 and 90"
      else if existsb (fun val => (val <? 3) || (20 <? val)) (attributeValues attrs)
      then Some "Attributes must be between 3 and 20"
      else None
  | None => None
  end.
Proof.
  unfold validateCharacter. cbv zeta. cbn [errors Errors.attributes].
  destruct (Data.basicAttributes data) as [attrs|]; [|reflexivity].
  rewrite sum_attributeValues. reflexivity.
Qed.

Lemma resources_message (data : Data.t) :
  Errors.resources (errors (validateCharacter data)) =
  match Data.resources data with
  | Some res =>
      if maxHP res <? HP res then Some "Current HP cannot exceed Max HP"
      else if (HP res <? 1) || (maxHP res <? 1)
      then Some "HP and Max HP must be at least 1"
      else if (level res <? 1) || (20 <? level res)
      then Some "Level must be between 1 and 20"
      else None
  | None => None
  end.
Proof.
  unfold validateCharacter. cbv zeta. cbn [errors Errors.resources].
  destruct (Data.resources data) as [res|]; reflexivity.
Qed.

Lemma names_messages (data : Data.t) :
  let e := errors (validateCharacter data) in
  (Errors.characterName e = None
   <-> blank (Data.characterName data) = false
       /\ (2 <= trimmedLength (Data.characterName data) <= 50)%nat)
  /\ (Errors.playerName e = None
      <-> blank (Data.playerName data) = false
          /\ (2 <= trimmedLength (Data.playerName data))%nat)
  /\ (Errors.ancestry e = None <-> blank (Data.ancestry data) = false)
  /\ (Errors.class e = None <-> blank (Data.class data) = false)
  /\ (Errors.background e = None <-> blank (Data.background data) = false)
  /\ Errors.general e = None.
Proof.
  unfold validateCharacter. cbv zeta.
  cbn [errors Errors.characterName Errors.playerName Errors.ancestry Errors.class
       Errors.background Errors.general].
  destruct (blank (Data.characterName data)), (blank (Data.playerName data)),
    (blank (Data.ancestry data)), (blank (Data.class data)),
    (blank (Data.background data));
    destruct (Nat.ltb_spec (trimmedLength (Data.characterName data)) 2);
    destruct (Nat.ltb_spec 50 (trimmedLength (Data.characterName data)));
    destruct (Nat.ltb_spec (trimmedLength (Data.playerName data)) 2);
    repeat match goal with |- _ /\ _ => split end; try reflexivity;
    (split; intros Hside); try discriminate; try reflexivity;
    try lia; try (repeat split; (reflexivity || lia)).
Qed.

Lemma valid_scores (data : Data.t) :
  isValid (validateCharacter data) = true ->
  forall attrs, Data.basicAttributes data = Some attrs -> scoresInRange attrs.
Proof.
  intros Hv attrs Ha. apply isValid_errors, errorValues_nil in Hv.
  destruct Hv as (_ & _ & _ & _ & _ & Hattr & _).
  rewrite attributes_message, Ha in Hattr.
  destruct ((_ <? 48) || _); [discriminate|].
  destruct (existsb _ _) eqn:E; [discriminate|]. now apply outOfRange_false.
Qed.

(** X17: [validateCharacter] accepts the data exactly when the character
    name has 2 to 50 characters after trimming, the player name at
    least 2, ancestry, class and background are not blank, the scores
    (when given) are all from 3 to 20 with a total from 48 to 90, and the
    resources (when given) have a level from 1 to 20 and
    1 <= HP <= maxHP. *)
Theorem validateCharacter_accepts (data : Data.t) :
  isValid (validateCharacter data) = true
  <-> (blank (Data.characterName data) = false
       /\ (2 <= trimmedLength (Data.characterName data) <= 50)%nat)
      /\ (blank (Data.playerName data) = false
          /\ (2 <= trimmedLength (Data.playerName data))%nat)
      /\ blank (Data.ancestry data) = false
      /\ blank (Data.class data) = false
      /\ blank (Data.background data) = false
      /\ (forall attrs, Data.basicAttributes data = Some attrs ->
          scoresInRange attrs /\ 48 <= sumScores attrs <= 90)
      /\ (forall res, Data.resources data = Some res ->
          1 <= level res <= 20 /\ 1 <= HP res <= maxHP res).
Proof.
  rewrite isValid_errors, errorValues_nil.
  destruct (names_messages data) as (Hc & Hp & Ha & Hk & Hb & Hg).
  cbv zeta in *. rewrite Hc, Hp, Ha, Hk, Hb, attributes_message, resources_message.
  assert (Hattr :
    match Data.basicAttributes data with
    | Some attrs =>
        if (sumScores attrs <? 48) || (90 <? sumScores attrs)
        then Some "Total attribute points should be between 48 and 90"
        else if existsb (fun val => (val <? 3) || (20 <? val)) (attributeValues attrs)
        then Some "Attributes must be between 3 and 20"
        else None
    | None => None
    end = None
    <-> (forall attrs, Data.basicAttributes data = Some attrs ->
         scoresInRange attrs /\ 48 <= sumScores attrs <= 90)).
  { destruct (Data.basicAttributes data) as [attrs|].
    - destruct (Z.ltb_spec (sumScores attrs) 48); cbn [orb].
      { split; [discriminate|]. intros H0. destruct (H0 _ eq_refl). lia. }
      destruct (Z.ltb_spec 90 (sumScores attrs)).
      { split; [discriminate|]. intros H1. destruct (H1 _ eq_refl). lia. }
      destruct (existsb _ (attributeValues attrs)) eqn:E.
      + split; [discriminate|]. intros H1. destruct (H1 _ eq_refl) as [Hr _].
        apply outOfRange_false in Hr. congruence.
      + split; [|reflexivity]. intros _ a [= <-].
        split; [now apply outOfRange_false | lia].
    - split; [discriminate 2 | reflexivity]. }
  assert (Hres :
    match Data.resources data with
    | Some res =>
        if maxHP res <? HP res then Some "Current HP cannot exceed Max HP"
        else if (HP res <? 1) || (maxHP res <? 1)
        then Some "HP and Max HP must be at least 1"
        else if (level res <? 1) || (20 <? level res)
        then Some "Level must be between 1 and 20"
        else None
    | None => None
    end = None
    <-> (forall res, Data.resources data = Some res ->
         1 <= level res <= 20 /\ 1 <= HP res <= maxHP res)).
  { destruct (Data.resources data) as [res|].
    - destruct (Z.ltb_spec (maxHP res) (HP res)).
      { split; [discriminate|]. intros H0. destruct (H0 _ eq_refl). lia. }
      destruct (Z.ltb_spec (HP res) 1); cbn [orb].
      { split; [discriminate|]. intros H1. destruct (H1 _ eq_refl). lia. }
      destruct (Z.ltb_spec (maxHP res) 1).
      { split; [discriminate|]. intros H2. destruct (H2 _ eq_refl). lia. }
      destruct (Z.ltb_spec (level res) 1); cbn [orb].
      { split; [discriminate|]. intros H3. destruct (H3 _ eq_refl). lia. }
      destruct (Z.ltb_spec 20 (level res)).
      { split; [discriminate|]. intros H4. destruct (H4 _ eq_refl). lia. }
      split; [|reflexivity]. intros _ r [= <-]. lia.
    - split; [discriminate 2 | reflexivity]. }
  rewrite Hattr, Hres. tauto.
Qed.

Lemma validateCharacter_accepts_witness :
  isValid (validateCharacter (asPartial aria)) = true.
Proof.
  refine (proj2 (validateCharacter_accepts (asPartial aria)) _).
  split; [split; [reflexivity | vm_compute; lia]|].
  split; [split; [reflexivity | vm_compute; lia]|].
  split; [reflexivity|]. split; [reflexivity|]. split; [reflexivity|].
  split.
  - intros attrs [= <-]. split; [repeat constructor; cbn; lia | cbn; lia].
  - intros res [= <-]. cbn. lia.
Defined.

(** X18: of the two messages about the scores only one is reported, the
    one about the total when the total is out of range; the range
    message appears exactly when a score is out of range and the total
    is not.  Likewise the level message appears exactly when the level
    is out of range and the HP checks pass, the message about HP below
    1 only when HP does not exceed the maximum, and the message about
    HP above the maximum whenever that is so. *)
Theorem validation_messages_masked (data : Data.t) (attrs : BasicAttributes)
    (res : Resources) :
  Data.basicAttributes data = Some attrs ->
  Data.resources data = Some res ->
  (Errors.attributes (errors (validateCharacter data))
   = Some "Attributes must be between 3 and 20"
   <-> ~ scoresInRange attrs /\ 48 <= sumScores attrs <= 90)
  /\ (Errors.attributes (errors (validateCharacter data))
      = Some "Total attribute points should be between 48 and 90"
      <-> ~ 48 <= sumScores attrs <= 90)
  /\ (Errors.resources (errors (validateCharacter data))
      = Some "Level must be between 1 and 20"
      <-> ~ 1 <= level res <= 20 /\ 1 <= HP res <= maxHP res)
  /\ (Errors.resources (errors (validateCharacter data))
      = Some "HP and Max HP must be at least 1"
      <-> (HP res < 1 \/ maxHP res < 1) /\ HP res <= maxHP res)
  /\ (Errors.resources (errors (validateCharacter data))
      = Some "Current HP cannot exceed Max HP"
      <-> maxHP res < HP res).
Proof.
  intros Ha Hr. rewrite attributes_message, resources_message, Ha, Hr.
  pose proof (outOfRange_false attrs) as Hrange.
  split; [|split; [|split; [|split]]].
  - destruct (Z.ltb_spec (sumScores attrs) 48); cbn [orb];
      [split; [discriminate | lia]|].
    destruct (Z.ltb_spec 90 (sumScores attrs)); [split; [discriminate | lia]|].
    destruct (existsb _ (attributeValues attrs)).
    + split; [|reflexivity]. intros _. split; [|lia].
      intros Hin. apply Hrange in Hin. discriminate.
    + split; [discriminate|]. intros [Hn _]. exfalso. apply Hn. now apply Hrange.
  - destruct (Z.ltb_spec (sumScores attrs) 48); cbn [orb];
      [split; [lia | reflexivity]|].
    destruct (Z.ltb_spec 90 (sumScores attrs)); [split; [lia | reflexivity]|].
    destruct (existsb _ (attributeValues attrs)); split; try discriminate; lia.
  - destruct (Z.ltb_spec (maxHP res) (HP res)); [split; [discriminate | lia]|].
    destruct (Z.ltb_spec (HP res) 1); cbn [orb]; [split; [discriminate | lia]|].
    destruct (Z.ltb_spec (maxHP res) 1); [split; [discriminate | lia]|].
    destruct (Z.ltb_spec (level res) 1); cbn [orb]; [split; [lia | reflexivity]|].
    destruct (Z.ltb_spec 20 (level res)); [split; [lia | reflexivity]|].
    split; [discriminate | lia].
  - destruct (Z.ltb_spec (maxHP res) (HP res)); [split; [discriminate | lia]|].
    destruct (Z.ltb_spec (HP res) 1); cbn [orb]; [split; [lia | reflexivity]|].
    destruct (Z.ltb_spec (maxHP res) 1); [split; [lia | reflexivity]|].
    destruct (Z.ltb_spec (level res) 1); cbn [orb]; [split; [discriminate | lia]|].
    destruct (Z.ltb_spec 20 (level res)); split; try discriminate; lia.
  - destruct (Z.ltb_spec (maxHP res) (HP res)); [split; [lia | reflexivity]|].
    destruct (Z.ltb_spec (HP res) 1); cbn [orb]; [split; [discriminate | lia]|].
    destruct (Z.ltb_spec (maxHP res) 1); [split; [discriminate | lia]|].
    destruct (Z.ltb_spec (level res) 1); cbn [orb]; [split; [discriminate | lia]|].
    destruct (Z.ltb_spec 20 (level res)); split; try discriminate; lia.
Qed.

Lemma validation_messages_masked_witness :
  Errors.attributes (errors (validateCharacter broken))
  = Some "Total attribute points should be between 48 and 90"
  /\ Errors.resources (errors (validateCharacter broken))
     = Some "Current HP cannot exceed Max HP".
Proof.
  destruct (validation_messages_masked broken (mkBasicAttributes 1 1 1 1 1 1)
              (mkResources 0 9 8 10 0 0 0 false) eq_refl eq_refl)
    as (_ & Htotal & _ & _ & Hhp).
  split; [apply Htotal; cbn; lia | apply Hhp; cbn; lia].
Defined.

End ValidationFacts.

Module TemplateFacts.

Import JS JSArray Types DiceService CharacterStore Notions SheetNotions.
Import Samples MoreSamples.















Lemma generateCharacterImage_run (rt : Runtime) (ancestry : option string) (k : nat) :
  generateCharacterImage rt ancestry k
  = (Return (portraitAddress
             ++ toString (Math_floor
                            (mathRandom rt (k + portraitDraws ancestry - 1) * 1000)%Q)),
     (k + portraitDraws ancestry)%nat).
Proof.
  unfold generateCharacterImage, bind, ret, mathRandomCall, portraitAddress.
  destruct ancestry as [[|c r]|]; cbn [portraitDraws];
    rewrite <- ?StringFacts.append_assoc;
    repeat f_equal; lia.
Qed.



(** X21: the template [createDefaultCharacter] gives passes the checks on
    scores and resources and is rejected all the same, for its empty
    character name, ancestry, class and background; the player name is
    the user name, and the armour class 10 it shows is the one
    [calculateAC] gives for its scores. *)
Theorem default_template_incomplete (rt : Runtime) (user : User) (session : string)
    (k : nat) :
  exists template,
    createDefaultCharacter rt user session k = (Return template, (k + 2)%nat)
    /\ playerName (newInfo template) = username user
    /\ isValid (validateCharacter (asPartial template)) = false
    /\ Errors.attributes (errors (validateCharacter (asPartial template))) = None
    /\ Errors.resources (errors (validateCharacter (asPartial template))) = None
    /\ Errors.characterName (errors (validateCharacter (asPartial template)))
       = Some "Character name is required"
    /\ Errors.ancestry (errors (validateCharacter (asPartial template)))
       = Some "Ancestry is required"
    /\ Errors.class (errors (validateCharacter (asPartial template)))
       = Some "Class is required"
    /\ Errors.background (errors (validateCharacter (asPartial template)))
       = Some "Background is required"
    /\ AC (newResources template) = calculateAC (newAttributes template) [].
Proof.
  unfold createDefaultCharacter, bind. rewrite generateCharacterImage_run. unfold ret.
  cbn [portraitDraws]. eexists. split; [reflexivity|].
  split; [reflexivity|].
  repeat split.
Qed.

End TemplateFacts.

Module StoreFacts.

Import JS JSText JSMap MapFacts LocalStorage Types DiceService CharacterStore.
Import Notions HistoryNotions SheetNotions.
Import Samples MoreSamples.


Lemma get_In {V} (m : Map V) (k : string) (v : V) : get m k = Some v -> In (k, v) m.
Proof.
  induction m as [|[k' v'] m IH]; simpl; [discriminate|].
  destruct (String.eqb_spec k' k) as [->|Hk].
  - intros [= ->]. now left.
  - intros H. right. now apply IH.
Qed.

Lemma In_get {V} (m : Map V) (k : string) (v : V) :
  NoDup (keys m) -> In (k, v) m -> get m k = Some v.
Proof.
  induction m as [|[k' v'] m IH]; simpl; [contradiction|].
  intros Hnd [[= -> ->]|Hin].
  - now rewrite String.eqb_refl.
  - inversion Hnd as [|? ? Hnotin Hnd']; subst.
    destruct (String.eqb_spec k' k) as [->|Hk].
    + exfalso. apply Hnotin. apply in_map_iff. now exists (k, v).
    + now apply IH.
Qed.

Lemma In_set {V} (m : Map V) (k : string) (v : V) (e : string * V) :
  In e (set m k v) -> e = (k, v) \/ In e m.
Proof.
  induction m as [|[k' v'] m IH]; simpl.
  - intros [<-|[]]. now left.
  - destruct (String.eqb_spec k' k) as [->|Hk]; simpl.
    + intros [<-|Hin]; [now left | right; now right].
    + intros [<-|Hin]; [right; now left|].
      destruct (IH Hin) as [->|H]; [now left | right; now right].
Qed.

Lemma In_delete {V} (m : Map V) (k : string) (e : string * V) :
  In e (delete m k) <-> In e m /\ fst e <> k.
Proof.
  unfold delete. rewrite filter_In.
  destruct (String.eqb_spec (fst e) k); cbn [negb]; intuition congruence.
Qed.

Lemma keys_set_present {V} (m : Map V) (k : string) (v v' : V) :
  get m k = Some v' -> keys (set m k v) = keys m.
Proof. intros H. rewrite keys_set. unfold has. now rewrite H. Qed.

Lemma saved_characters (st : Store) :
  characters (saveCharactersToStorage st) = characters st.
Proof. unfold saveCharactersToStorage. now destruct (writable st). Qed.

Lemma In_allCharacters (c : CharacterRecord) (st : Store) :
  In c (allCharacters st) <-> exists k, In (k, c) (characters st).
Proof.
  unfold allCharacters. rewrite in_map_iff. split.
  - intros ([k c'] & <- & H). now exists k.
  - intros [k H]. now exists (k, c).
Qed.

(** X22: [createCharacter] rejects exactly the data [validateCharacter]
    does not accept, and then leaves the store as it was.  Otherwise the
    character it returns is the one [getCharacter] then gives for its
    id, no other id is affected, it is listed for the user and for the
    session, it carries nothing, its name is trimmed, and its armour
    class is 10 plus the DEX modifier, from 6 to 15, whatever armour
    class the data gave. *)
Theorem createCharacter_outcome (now : Z) (suffix : string)
    (data : CharacterCreationData) (user : User) (session : string) (st : Store) :
  match createCharacter now suffix data user session st with
  | (Throw e, st') =>
      isValid (validateCharacter (asPartial data)) = false
      /\ st' = st
      /\ e = JsError ("Character validation failed: "
                      ++ join ", " (errorValues (errors (validateCharacter (asPartial data)))))
  | (Return c, st') =>
      isValid (validateCharacter (asPartial data)) = true
      /\ id c = "char-" ++ toString now ++ "-" ++ suffix
      /\ getCharacter (id c) st' = Some c
      /\ (forall other, other <> id c -> getCharacter other st' = getCharacter other st)
      /\ In c (getCharactersByUser (userIdOf user) st')
      /\ In c (getCharactersBySession session st')
      /\ (weapons c = [] /\ armor c = [] /\ equipment c = []
          /\ spells c = [] /\ talents c = [])
      /\ characterName (characterInfo c) = trim (characterName (newInfo data))
      /\ basicAttributes (core c) = newAttributes data
      /\ resources (core c)
         = withAC (newResources data) (10 + (attrDEX (newAttributes data) - 10) / 2)
      /\ 6 <= AC (resources (core c)) <= 15
  end.
Proof.
  unfold createCharacter. cbv zeta.
  destruct (isValid (validateCharacter (asPartial data))) eqn:Hv; cbn [negb].
  2: { repeat split. }
  assert (Hac : calculateAC (newAttributes data) []
                = 10 + (attrDEX (newAttributes data) - 10) / 2
                /\ 6 <= calculateAC (newAttributes data) [] <= 15).
  { pose proof (ValidationFacts.valid_scores _ Hv _ eq_refl) as Hr.
    unfold scoresInRange, attributeValues in Hr.
    inversion Hr as [|? ? _ Hr1]; subst. inversion Hr1 as [|? ? Hd _]; subst.
    unfold calculateAC. cbn [find]. rewrite CharacterFacts.calculateModifier_div.
    assert (-4 <= (attrDEX (newAttributes data) - 10) / 2 <= 5).
    { split; [apply Z.div_le_lower_bound | apply Z.div_le_upper_bound]; lia. }
    lia. }
  destruct Hac as [Hac Hrange].
  unfold getCharacter, getCharactersByUser, getCharactersBySession.
  cbn [id userId sessionId weapons armor equipment spells talents characterInfo
       characterName core basicAttributes resources].
  rewrite saved_characters. cbn [characters].
  split; [reflexivity|]. split; [reflexivity|].
  split; [apply get_set_same|].
  split; [intros other Hne; now apply get_set_other|].
  assert (Hin : forall c k,
            In c (allCharacters
                    (saveCharactersToStorage
                       (mkStore (set (characters st) k c) (item st) (writable st))))).
  { intros c k. apply In_allCharacters. exists k. rewrite saved_characters.
    cbn [characters]. apply get_In, get_set_same. }
  split; [apply filter_In; split; [apply Hin | cbn [userId]; apply String.eqb_refl]|].
  split; [apply filter_In; split; [apply Hin | cbn [sessionId]; apply String.eqb_refl]|].
  split; [repeat split|]. split; [reflexivity|]. split; [reflexivity|].
  rewrite Hac. split; [reflexivity|]. cbn [withAC AC]. lia.
Qed.

Lemma createCharacter_outcome_witness :
  exists c st',
    createCharacter 1700000000000 "k3j9x2m1q" aria kim "session-1" oneCharacter
    = (Return c, st')
    /\ AC (resources (core c)) = 13
    /\ getCharacter "char-1-abc" st' = getCharacter "char-1-abc" oneCharacter.
Proof.
  pose proof (createCharacter_outcome 1700000000000 "k3j9x2m1q" aria kim "session-1"
                oneCharacter) as H.
  destruct (createCharacter 1700000000000 "k3j9x2m1q" aria kim "session-1" oneCharacter)
    as [[c|e] st'] eqn:E.
  - exists c, st'. split; [reflexivity|].
    destruct H as (_ & Hid & _ & Hother & _ & _ & _ & _ & _ & Hres & _).
    split; [now rewrite Hres|].
    apply Hother. rewrite Hid. discriminate.
  - exfalso. destruct H as (Hv & _). discriminate Hv.
Defined.

(** X23: [updateCharacter] rejects an id that is not stored and leaves
    the store as it was.  Otherwise it returns what [getCharacter] then
    gives for that id, under the id it was asked for even when the
    update names another, adds no entry and affects no other id; when
    the update carries scores or armour the armour class is the one
    [calculateAC] gives for the updated character, whatever resources
    the update carries, and otherwise the resources are those of the
    update or, without any, of the stored character. *)
Theorem updateCharacter_outcome (characterId : string) (updates : Updates.t)
    (st : Store) :
  match updateCharacter characterId updates st with
  | (Throw e, st') =>
      getCharacter characterId st = None /\ st' = st
      /\ e = JsError "Character not found"
  | (Return c, st') =>
      exists old,
        getCharacter characterId st = Some old
        /\ id c = characterId
        /\ getCharacter characterId st' = Some c
        /\ (forall other, other <> characterId ->
            getCharacter other st' = getCharacter other st)
        /\ keys (characters st') = keys (characters st)
        /\ basicAttributes (core c)
           = orElse (Updates.basicAttributes updates) (basicAttributes (core old))
        /\ armor c = orElse (Updates.armor updates) (armor old)
        /\ (if isSome (Updates.basicAttributes updates) || isSome (Updates.armor updates)
            then consistentAC c
            else resources (core c)
                 = orElse (Updates.resources updates) (resources (core old)))
  end.
Proof.
  unfold updateCharacter, getCharacter. cbv zeta.
  destruct (get (characters st) characterId) as [old|] eqn:Hget.
  2: { repeat split. }
  exists old. rewrite saved_characters. cbn [characters].
  split; [reflexivity|].
  destruct (isSome (Updates.basicAttributes updates) || isSome (Updates.armor updates));
    cbn [id core basicAttributes armor resources];
    (split; [reflexivity|]); (split; [apply get_set_same|]);
    (split; [intros other Hne; now apply get_set_other|]);
    (split; [now apply keys_set_present with old|]);
    (split; [reflexivity|]); (split; [reflexivity|]).
  - unfold consistentAC. reflexivity.
  - reflexivity.
Qed.

Lemma updateCharacter_outcome_witness :
  exists c st',
    updateCharacter "char-1-abc"
      (Updates.mk (Some "char-9") None None None None None None None None None None)
      oneCharacter
    = (Return c, st')
    /\ id c = "char-1-abc"
    /\ getCharacter "char-9" st' = None.
Proof.
  pose proof (updateCharacter_outcome "char-1-abc"
                (Updates.mk (Some "char-9") None None None None None None None None None
                   None) oneCharacter) as H.
  destruct (updateCharacter "char-1-abc" _ oneCharacter) as [[c|e] st'] eqn:E.
  - exists c, st'. split; [reflexivity|].
    destruct H as (old & _ & Hid & _ & Hother & _).
    split; [exact Hid|]. rewrite Hother; [reflexivity | discriminate].
  - exfalso. destruct H as (Hnone & _). discriminate Hnone.
Defined.

Lemma applyStoreOp_wellKeyed (op : StoreOp) (st : Store) :
  wellKeyed (characters st) -> wellKeyed (characters (applyStoreOp st op)).
Proof.
  intros [Hnd Hid]. destruct op as [now suffix data user session|cid updates|cid];
    cbn [applyStoreOp].
  - unfold createCharacter. cbv zeta.
    destruct (negb _); cbn [snd]; [now split|].
    rewrite saved_characters. cbn [characters]. split; [now apply NoDup_set|].
    intros k c Hin. apply In_set in Hin as [[= -> ->]|Hin]; [reflexivity | now apply Hid].
  - unfold updateCharacter. cbv zeta.
    destruct (get (characters st) cid) as [old|]; cbn [snd]; [|now split].
    rewrite saved_characters. cbn [characters]. split; [now apply NoDup_set|].
    intros k c Hin. apply In_set in Hin as [[= -> ->]|Hin]; [|now apply Hid].
    now destruct (isSome _ || isSome _).
  - unfold deleteCharacter. rewrite saved_characters. cbn [characters].
    split; [now apply NoDup_delete|].
    intros k c Hin. apply In_delete in Hin as [Hin _]. now apply Hid.
Qed.

Lemma applyStoreOp_consistent (op : StoreOp) (st : Store) :
  recalculating op = true ->
  (forall k c, In (k, c) (characters st) -> consistentAC c) ->
  forall k c, In (k, c) (characters (applyStoreOp st op)) -> consistentAC c.
Proof.
  intros Hop Hall k c.
  destruct op as [now suffix data user session|cid updates|cid]; cbn [applyStoreOp].
  - unfold createCharacter. cbv zeta.
    destruct (negb _); cbn [snd]; [apply Hall|].
    rewrite saved_characters. cbn [characters].
    intros Hin. apply In_set in Hin as [[= -> ->]|Hin]; [reflexivity | now apply Hall with k].
  - unfold updateCharacter. cbv zeta.
    destruct (get (characters st) cid) as [old|] eqn:Hget; cbn [snd]; [|apply Hall].
    rewrite saved_characters. cbn [characters].
    intros Hin. apply In_set in Hin as [[= -> ->]|Hin]; [|now apply Hall with k].
    pose proof (Hall _ _ (get_In _ _ _ Hget)) as Hold.
    cbn [recalculating] in Hop. unfold recalculates in Hop.
    destruct (Updates.basicAttributes updates) as [attrs|];
      destruct (Updates.armor updates) as [arm|]; cbn [isSome orb]; try reflexivity.
    destruct (Updates.resources updates); [discriminate|].
    unfold consistentAC. cbn [core resources basicAttributes armor orElse]. exact Hold.
  - unfold deleteCharacter. rewrite saved_characters. cbn [characters].
    intros Hin. apply In_delete in Hin as [Hin _]. now apply Hall with k.
Qed.

(** X24: starting with nothing stored, after any sequence of creations,
    updates and deletions every character is kept under its own id and
    no id is listed twice; if every update that sets the resources sets
    the armour or the scores too, the armour class of every stored
    character is the one [calculateAC] gives for it. *)
Theorem stored_characters_invariant (w : bool) (ops : list StoreOp) :
  let st := runStoreOps ops (initialize NoItem w) in
  (forall k c, getCharacter k st = Some c -> id c = k)
  /\ NoDup (map id (allCharacters st))
  /\ (forallb recalculating ops = true ->
      forall c, In c (allCharacters st) -> consistentAC c).
Proof.
  cbv zeta.
  assert (Hwk : wellKeyed (characters (runStoreOps ops (initialize NoItem w)))).
  { unfold runStoreOps. induction ops as [|op ops IH] using rev_ind.
    - split; [constructor | intros k c []].
    - rewrite fold_left_app. cbn [fold_left]. now apply applyStoreOp_wellKeyed. }
  split; [|split].
  - intros k c Hget. apply (proj2 Hwk). now apply get_In.
  - destruct Hwk as [Hnd Hid]. unfold allCharacters.
    replace (map id (map snd (characters (runStoreOps ops (initialize NoItem w)))))
      with (keys (characters (runStoreOps ops (initialize NoItem w)))); [assumption|].
    unfold keys. rewrite map_map. apply map_ext_in. intros [k c] Hin.
    symmetry. now apply Hid.
  - intros Hops c Hin. apply In_allCharacters in Hin as [k Hin].
    clear Hwk. revert k c Hin. unfold runStoreOps.
    induction ops as [|op ops IH] using rev_ind; [intros k c []|].
    rewrite forallb_app in Hops. apply andb_true_iff in Hops as [Hops Hop].
    cbn [forallb] in Hop. rewrite andb_true_r in Hop.
    rewrite fold_left_app. cbn [fold_left].
    intros k c Hin.
    eapply applyStoreOp_consistent; [exact Hop | apply IH; exact Hops | exact Hin].
Qed.

Lemma stored_characters_invariant_witness :
  Forall consistentAC
    (allCharacters
       (runStoreOps
          [Create 1700000000000 "k3j9x2m1q" aria kim "session-1";
           Update "char-1700000000000-k3j9x2m1q"
             (Updates.mk None None None None None None None (Some [leather]) None
                None None)]
          (initialize NoItem true))).
Proof.
  apply Forall_forall.
  apply (stored_characters_invariant true
           [Create 1700000000000 "k3j9x2m1q" aria kim "session-1";
            Update "char-1700000000000-k3j9x2m1q"
              (Updates.mk None None None None None None None (Some [leather]) None
                 None None)]).
  reflexivity.
Defined.

(** X25: in a store that keeps every character under its own id, after
    [deleteCharacter] the id is not found, the lists by user and by
    session lose exactly the character with that id, and every other id
    is found as before. *)
Theorem deleteCharacter_removes (characterId : string) (st : Store) :
  wellKeyed (characters st) ->
  getCharacter characterId (deleteCharacter characterId st) = None
  /\ (forall other, other <> characterId ->
      getCharacter other (deleteCharacter characterId st) = getCharacter other st)
  /\ (forall user c,
      In c (getCharactersByUser user (deleteCharacter characterId st))
      <-> In c (getCharactersByUser user st) /\ id c <> characterId)
  /\ (forall session c,
      In c (getCharactersBySession session (deleteCharacter characterId st))
      <-> In c (getCharactersBySession session st) /\ id c <> characterId).
Proof.
  intros [Hnd Hid]. unfold getCharacter, deleteCharacter.
  rewrite saved_characters. cbn [characters].
  split; [apply get_delete_same|]. split; [intros other Hne; now apply get_delete_other|].
  assert (Hall : forall c,
            In c (allCharacters
                    (saveCharactersToStorage
                       (mkStore (delete (characters st) characterId) (item st)
                          (writable st))))
            <-> In c (allCharacters st) /\ id c <> characterId).
  { intros c. rewrite !In_allCharacters. rewrite saved_characters. cbn [characters].
    split.
    - intros [k Hin]. apply In_delete in Hin as [Hin Hne]. cbn [fst] in Hne.
      split; [now exists k|]. now rewrite (Hid _ _ Hin).
    - intros [[k Hin] Hne]. exists k. apply In_delete. split; [assumption|].
      cbn [fst]. now rewrite <- (Hid _ _ Hin). }
  split; intros u c; unfold getCharactersByUser, getCharactersBySession;
    rewrite !filter_In, Hall; tauto.
Qed.

Lemma deleteCharacter_removes_witness :
  getCharacter "char-1-abc" (deleteCharacter "char-1-abc" oneCharacter) = None
  /\ getCharactersByUser "user-1" (deleteCharacter "char-1-abc" oneCharacter) = [].
Proof.
  assert (Hwk : wellKeyed (characters oneCharacter)).
  { split; [repeat constructor; intros [] |].
    intros k c [[= <- <-]|[]]. reflexivity. }
  destruct (deleteCharacter_removes "char-1-abc" oneCharacter Hwk) as (Hget & _).
  split; [exact Hget | reflexivity].
Defined.

Lemma applyStoreOp_reload (op : StoreOp) (st : Store) :
  NoDup (keys (characters st)) -> writable st = true ->
  loadCharactersFromStorage st = st ->
  NoDup (keys (characters (applyStoreOp st op)))
  /\ writable (applyStoreOp st op) = true
  /\ loadCharactersFromStorage (applyStoreOp st op) = applyStoreOp st op.
Proof.
  intros Hnd Hw Hload.
  assert (Hsave : forall m,
            NoDup (keys m) ->
            let st' := saveCharactersToStorage (mkStore m (item st) (writable st)) in
            NoDup (keys (characters st')) /\ writable st' = true
            /\ loadCharactersFromStorage st' = st').
  { intros m Hm. cbv zeta. unfold saveCharactersToStorage. cbn [writable characters].
    rewrite Hw. cbn [characters writable]. split; [assumption|]. split; [reflexivity|].
    unfold loadCharactersFromStorage. cbn [item writable].
    now rewrite fromEntries_entries. }
  destruct op as [now suffix data user session|cid updates|cid]; cbn [applyStoreOp].
  - unfold createCharacter. cbv zeta.
    destruct (negb _); cbn [snd]; [auto|]. apply Hsave. now apply NoDup_set.
  - unfold updateCharacter. cbv zeta.
    destruct (get (characters st) cid) as [old|]; cbn [snd]; [|auto].
    apply Hsave. now apply NoDup_set.
  - unfold deleteCharacter. apply Hsave. now apply NoDup_delete.
Qed.

(** X26: while writes to the storage succeed, what is stored is the
    whole set of characters: whatever was stored at the start, loading
    the storage back after any sequence of creations, updates and
    deletions changes nothing. *)
Theorem characters_reload_changes_nothing (stored : Item CharacterRecord)
    (ops : list StoreOp) :
  loadCharactersFromStorage (runStoreOps ops (initialize stored true))
  = runStoreOps ops (initialize stored true).
Proof.
  assert (Hinv : NoDup (keys (characters (runStoreOps ops (initialize stored true))))
                 /\ writable (runStoreOps ops (initialize stored true)) = true
                 /\ loadCharactersFromStorage (runStoreOps ops (initialize stored true))
                    = runStoreOps ops (initialize stored true)).
  { unfold runStoreOps. induction ops as [|op ops IH] using rev_ind.
    - cbn [fold_left]. destruct stored; cbn; repeat split; try constructor.
      apply NoDup_fromEntries.
    - rewrite fold_left_app. cbn [fold_left]. destruct IH as (Hnd & Hw & Hl).
      now apply applyStoreOp_reload. }
  apply Hinv.
Qed.

End StoreFacts.

Module InventoryFacts.

Import JS JSMap MapFacts Types DiceService CharacterStore InventoryManager Notions SheetNotions.
Import Samples MoreSamples.







Lemma actionUpdates_recalculates (c : CharacterRecord) (action : InventoryAction) :
  recalculates (actionUpdates c action) = true.
Proof. destruct action as [[]| |[]|? ? []]; reflexivity. Qed.

(** X29: whatever the inventory does, the armour class on the sheet is
    the one [calculateAC] gives.  Starting with nothing stored, after
    any sequence of creations and of inventory actions on stored
    characters (equipping, changing a quantity, removing, adding),
    every stored character has the armour class [calculateAC] gives for
    its scores and armour: the figures the inventory works out when
    armour is equipped or removed never reach the store. *)
Theorem inventory_keeps_armor_class (w : bool) (steps : list SessionStep) :
  Forall consistentAC
    (allCharacters (runSteps steps (initialize LocalStorage.NoItem w))).
Proof.
  apply Forall_forall. intros c Hin. apply StoreFacts.In_allCharacters in Hin as [k Hin].
  revert k c Hin. unfold runSteps.
  induction steps as [|step steps IH] using rev_ind; [intros k c []|].
  rewrite fold_left_app. cbn [fold_left].
  set (st := fold_left applyStep steps (initialize LocalStorage.NoItem w)) in *.
  destruct step as [now suffix data user session|cid action]; cbn [applyStep].
  - apply (StoreFacts.applyStoreOp_consistent (Create now suffix data user session) st
             eq_refl IH).
  - destruct (getCharacter cid st) as [character|]; [|exact IH].
    apply (StoreFacts.applyStoreOp_consistent
             (Update (id character) (actionUpdates character action)) st
             (actionUpdates_recalculates character action) IH).
Qed.

End InventoryFacts.

